(** * llm-chess: the match controller, the game wrapper and the LLM adapters

    A shallow embedding of

    - [src/chess_engine/game.py]      ([ChessGame]),
    - [src/llm/base.py], [src/llm/anthropic_llm.py], [src/llm/openai_llm.py]
      ([ChessMove], [_get_chess_prompt], [get_next_move]),
    - [src/controller/game_controller.py] ([GameController]),
    - [src/ui/chess_utils.py], [src/ui/app.py]
      ([get_move_history_html], [play_single_move]).

    Conventions.

    - Python objects mutated through [self] become explicit state passing:
      a method is a function from the state before to its value and the
      state after.
    - A Python exception is a value of [exn]; a call that may raise returns
      an [outcome].
    - [float] values (thinking times, confidences, clocks) are exact
      rationals [Q]; Python [int] is [Z].  The rounding of binary64
      arithmetic is not modelled, so identities that need exact sums (a
      clock as its budget less the total of the samples, an average that
      stays below the longest sample) are not stated.
    - The python-chess library is not part of the repository: it is the
      interface [RulesEngine], with the guarantees the controller relies on
      in [RulesEngineLaws].  [Opening] is a concrete table of python-chess's
      answers on the positions the example runs reach, the null move
      included.
    - The [while] loop of [play_game] is driven by a step budget. *)

From Stdlib Require Import List String Ascii Bool ZArith QArith Lia Lqa.
From Stdlib Require Import DecimalString Sorted.
Import ListNotations.
Open Scope string_scope.

(** ** Python values *)

Module Py.

(** The exception classes the modelled code raises or catches.  All of
    them are subclasses of Python's [Exception]. *)
Inductive exn : Type :=
| KeyError (key : string)
| TypeError (msg : string)
| ValueError (msg : string)
| JSONDecodeError (msg : string)
| AttributeError (msg : string)
| Exception (msg : string).

(** [str(e)]: a [KeyError] prints the [repr] of its key. *)
Definition str_exn (e : exn) : string :=
  match e with
  | KeyError k => "'" ++ k ++ "'"
  | TypeError m => m
  | ValueError m => m
  | JSONDecodeError m => m
  | AttributeError m => m
  | Exception m => m
  end.

Inductive outcome (A : Type) : Type :=
| Ok (a : A)
| Raise (e : exn).

Arguments Ok {A} a.
Arguments Raise {A} e.

Definition bind {A B : Type} (x : outcome A) (k : A -> outcome B) : outcome B :=
  match x with
  | Ok a => k a
  | Raise e => Raise e
  end.

(** The newline character of the string literals. *)
Definition nl : string := String (ascii_of_nat 10) EmptyString.

(** [str(n)] for an [int]. *)
Definition str_int (z : Z) : string := NilZero.string_of_int (Z.to_int z).

(** [", ".join(l)]. *)
Fixpoint join (sep : string) (l : list string) : string :=
  match l with
  | [] => ""
  | [x] => x
  | x :: rest => x ++ sep ++ join sep rest
  end.

(** [x in l] for a list of strings. *)
Definition str_in (x : string) (l : list string) : bool :=
  existsb (String.eqb x) l.

(** Rounding to the nearest integer, ties to the even one. *)
Definition round_half_even (q : Q) : Z :=
  let n := (Qnum q * 100)%Z in
  let d := Z.pos (Qden q) in
  let f := (n / d)%Z in
  let r := (n mod d)%Z in
  match (2 * r ?= d)%Z with
  | Lt => f
  | Gt => (f + 1)%Z
  | Eq => if Z.even f then f else (f + 1)%Z
  end.

Definition two_digits (z : Z) : string :=
  if (z <? 10)%Z then "0" ++ str_int z else str_int z.

(** [f"{q:.2f}"]: two decimals, on the exact rational value. *)
Definition fmt_2f (q : Q) : string :=
  let h := Z.abs (round_half_even q) in
  (if Qle_bool 0 q then "" else "-")
    ++ str_int (h / 100) ++ "." ++ two_digits (h mod 100).

(** The part of a [datetime] that the code reads. *)
Record datetime : Type := { year : Z; month : Z; day : Z }.

(** [d.strftime("%Y.%m.%d")]. *)
Definition strftime_Ymd (d : datetime) : string :=
  str_int (year d) ++ "." ++ two_digits (month d) ++ "." ++ two_digits (day d).

End Py.

Import Py.

(** ** The rules engine (python-chess) *)

(** What [ChessGame] and [GameController] call on [chess.Board],
    [chess.Move] and [chess.pgn.Game].  [None] stands for the [ValueError]
    that [parse_san] and [Move.from_uci] raise. *)
Class RulesEngine : Type := {
  Board : Type;
  Move : Type;
  (** [chess.Board()] *)
  start_board : Board;
  (** [board.turn]; [chess.WHITE] is [True] *)
  turn : Board -> bool;
  (** [list(board.legal_moves)] *)
  board_legal_moves : Board -> list Move;
  (** [m1 == m2] *)
  move_eqb : Move -> Move -> bool;
  (** [board.push(move)] *)
  push : Board -> Move -> Board;
  (** [board.is_game_over()] *)
  board_is_game_over : Board -> bool;
  (** [board.is_checkmate()] *)
  is_checkmate : Board -> bool;
  (** [board.san(move)] *)
  san : Board -> Move -> string;
  (** [board.parse_san(text)] *)
  parse_san : Board -> string -> option Move;
  (** [move.uci()] *)
  uci : Move -> string;
  (** [chess.Move.from_uci(text)] and the message of its [ValueError] *)
  from_uci : string -> option Move;
  from_uci_error : string -> string;
  (** [board.fen()] *)
  fen : Board -> string;
  (** [str(game)] for a [chess.pgn.Game] with the given headers set and
      the given main line of moves and comments *)
  pgn_str : list (string * string) -> list (Move * string) -> string
}.

(** [move in board.legal_moves]. *)
Definition is_legal `{RulesEngine} (b : Board) (m : Move) : bool :=
  existsb (move_eqb m) (board_legal_moves b).

(** What python-chess guarantees and the proofs use.  Nothing is assumed
    about the moves that [parse_san] reads from other texts than the
    notations of the legal moves: it reads "--" as the null move, which
    is no legal move. *)
Class RulesEngineLaws (E : RulesEngine) : Prop := {
  move_eqb_eq : forall m1 m2 : Move, move_eqb m1 m2 = true <-> m1 = m2;
  checkmate_is_game_over :
    forall b : Board, is_checkmate b = true -> board_is_game_over b = true;
  parse_san_san :
    forall (b : Board) (m : Move),
      In m (board_legal_moves b) -> parse_san b (san b m) = Some m;
  from_uci_uci :
    forall (b : Board) (m : Move),
      In m (board_legal_moves b) -> from_uci (uci m) = Some m
}.

(** ** src/chess_engine/game.py *)

Module Game.
Section WithEngine.
Context {E : RulesEngine}.

(** [ChessGame]: the attributes set by [__init__]. *)
Record ChessGame : Type := {
  board : Board;
  player1 : string;
  player2 : string;
  (** (move, move_san, explanation) tuples *)
  move_history : list (string * string * string);
  start_time : datetime
}.

(** [ChessGame.__init__]; [now] is [datetime.now()]. *)
Definition init (player1 player2 : string) (now : datetime) : ChessGame :=
  {| board := start_board;
     player1 := player1;
     player2 := player2;
     move_history := [];
     start_time := now |}.

Definition current_player (g : ChessGame) : string :=
  if turn (board g) then player1 g else player2 g.

Definition is_game_over (g : ChessGame) : bool :=
  board_is_game_over (board g).

(** The property [result]. *)
Definition result (g : ChessGame) : string :=
  if negb (is_game_over g) then "*"
  else if is_checkmate (board g) then
    (if negb (turn (board g)) then "1-0" else "0-1")
  else "1/2-1/2".

Definition get_legal_moves (g : ChessGame) : list string :=
  map uci (board_legal_moves (board g)).

(** [make_move]: the value returned and the game afterwards. *)
Definition make_move (g : ChessGame) (move_uci move_san explanation : string)
  : bool * ChessGame :=
  match from_uci move_uci with
  | Some move =>
      if is_legal (board g) move then
        (true,
         {| board := push (board g) move;
            player1 := player1 g;
            player2 := player2 g;
            move_history :=
              move_history g ++ [(move_uci, move_san, explanation)];
            start_time := start_time g |})
      else (false, g)
  | None => (false, g)
  end.

Definition get_fen (g : ChessGame) : string := fen (board g).

(** The loop of [export_pgn]: every recorded move is read back with
    [Move.from_uci] and added with its explanation as comment. *)
Fixpoint pgn_nodes (h : list (string * string * string))
  : outcome (list (Move * string)) :=
  match h with
  | [] => Ok []
  | (move_uci, _, explanation) :: rest =>
      match from_uci move_uci with
      | None => Raise (ValueError (from_uci_error move_uci))
      | Some move =>
          bind (pgn_nodes rest) (fun nodes => Ok ((move, explanation) :: nodes))
      end
  end.

Definition headers (g : ChessGame) : list (string * string) :=
  [ ("Event", "LLM Chess Battle");
    ("Date", strftime_Ymd (start_time g));
    ("White", player1 g);
    ("Black", player2 g);
    ("Result", result g) ].

Definition export_pgn (g : ChessGame) : outcome string :=
  bind (pgn_nodes (move_history g)) (fun nodes => Ok (pgn_str (headers g) nodes)).

End WithEngine.
End Game.

(** ** src/llm *)

(** The adapters are modelled up to what they return and what they send
    to the provider: [_rate_limit] (a sleep) and their progress messages
    on standard output are left out. *)

Module LLM.

(** [ChessMove] (base.py). *)
Record ChessMove : Type := {
  move : string;
  explanation : string;
  confidence : Q;
  thinking_time : Q
}.

(** The arguments of [get_next_move]. *)
Record Request : Type := {
  board_fen : string;
  move_history : list string;
  legal_moves : list string
}.

(** [BaseLLM.__init__]: [self.retries = 3]. *)
Definition retries : nat := 3.

(** The loop over [enumerate(move_history, 1)]. *)
Fixpoint previous_moves (i : Z) (l : list string) : string :=
  match l with
  | [] => ""
  | m :: rest => str_int i ++ ". " ++ m ++ nl ++ previous_moves (i + 1) rest
  end.

Definition _get_chess_prompt (r : Request) : string :=
  let prompt :=
    "You are playing a game of chess. Analyze the position and make the best move."
      ++ nl ++ nl
      ++ "Current position (FEN): " ++ board_fen r ++ nl in
  let prompt :=
    match move_history r with
    | [] => prompt
    | _ :: _ =>
        prompt ++ nl ++ "Previous moves:" ++ nl
          ++ previous_moves 1 (move_history r)
    end in
  let prompt := prompt ++ nl ++ "Legal moves:" ++ nl in
  let prompt := prompt ++ join ", " (legal_moves r) in
  let prompt :=
    prompt ++ nl ++ nl
      ++ "Respond with your move in algebraic notation (e.g., 'e4', 'Nf3', etc.)" in
  let prompt :=
    prompt ++ nl ++ "and a brief explanation of your thinking." in
  prompt ++ nl
    ++ "Format your response as JSON with keys: 'move', 'explanation', 'confidence' (0-1)".

(** What [json.loads] makes of the text of a response: either it raises
    [JSONDecodeError], or it yields an object whose keys may be missing;
    [float(result["confidence"])] may raise on a value that is no number. *)
Record JsonObject : Type := {
  j_move : option string;
  j_explanation : option string;
  j_confidence : option (outcome Q)
}.

Inductive Body : Type :=
| NotJson (msg : string)
| Json (o : JsonObject).

(** One call of the provider's client: it raises, or a response arrives
    [elapsed] seconds after [start_time]. *)
Inductive ApiResponse : Type :=
| CallRaises (e : exn)
| Replies (elapsed : Q) (body : Body).

(** The provider, as seen from [get_next_move]: the response to the
    [i]-th call of one turn, given the prompt sent. *)
Definition Api : Type := nat -> string -> ApiResponse.

(** How one pass through the loop body ends. *)
Inductive step : Type :=
| Continue
| Return (m : ChessMove).

(** The body of the inner [try]. *)
Definition read_response (legal : list string) (i : nat) (thinking_time : Q)
    (body : Body) : outcome step :=
  match body with
  | NotJson msg => Raise (JSONDecodeError msg)
  | Json o =>
      match j_move o with
      | None => Raise (KeyError "move")
      | Some mv =>
          if negb (str_in mv legal) && (i <? retries)%nat then Ok Continue
          else
            match j_explanation o with
            | None => Raise (KeyError "explanation")
            | Some ex =>
                match j_confidence o with
                | None => Raise (KeyError "confidence")
                | Some (Raise e) => Raise e
                | Some (Ok c) =>
                    Ok (Return {| move := mv;
                                  explanation := ex;
                                  confidence := c;
                                  thinking_time := thinking_time |})
                end
            end
      end
  end.

(** [except (json.JSONDecodeError, KeyError) as e: raise ValueError(...)]. *)
Definition inner_except (provider : string) (r : outcome step) : outcome step :=
  match r with
  | Raise (JSONDecodeError m) =>
      Raise (ValueError ("Invalid response format from " ++ provider ++ ": "
                           ++ str_exn (JSONDecodeError m)))
  | Raise (KeyError k) =>
      Raise (ValueError ("Invalid response format from " ++ provider ++ ": "
                           ++ str_exn (KeyError k)))
  | _ => r
  end.

(** [except Exception as e: raise Exception(...)]. *)
Definition outer_except (provider : string) (r : outcome step) : outcome step :=
  match r with
  | Raise e =>
      Raise (Exception ("Error calling " ++ provider ++ " API: " ++ str_exn e))
  | Ok x => Ok x
  end.

(** One pass through the body of the [for] loop. *)
Definition attempt (provider : string) (api : Api) (prompt : string)
    (legal : list string) (i : nat) : outcome step :=
  outer_except provider
    match api i prompt with
    | CallRaises e => Raise e
    | Replies elapsed body =>
        inner_except provider (read_response legal i elapsed body)
    end.

(** [for i in range(1, self.retries + 1)], with [n] passes left.  The
    second component lists the prompts sent to the provider, in order. *)
Fixpoint attempts (provider : string) (api : Api) (prompt : string)
    (legal : list string) (n i : nat) : outcome (option ChessMove) * list string :=
  match n with
  | O => (Ok None, [])
  | S n' =>
      match attempt provider api prompt legal i with
      | Raise e => (Raise e, [prompt])
      | Ok (Return m) => (Ok (Some m), [prompt])
      | Ok Continue =>
          let (r, sent) := attempts provider api prompt legal n' (S i) in
          (r, prompt :: sent)
      end
  end.

(** [AnthropicLLM.get_next_move] and [OpenAILLM.get_next_move]: the two
    differ in the client they call and in the provider's name. *)
Definition llm_get_next_move (provider : string) (api : Api) (r : Request)
  : outcome (option ChessMove) * list string :=
  let prompt := _get_chess_prompt r in
  attempts provider api prompt (legal_moves r) retries 1.

(** [BaseLLM]: what the controller uses of a player. *)
Record BaseLLM : Type := {
  class_name : string;
  get_next_move : Request -> outcome (option ChessMove)
}.

Definition AnthropicLLM (api : Api) : BaseLLM :=
  {| class_name := "AnthropicLLM";
     get_next_move := fun r => fst (llm_get_next_move "Anthropic" api r) |}.

Definition OpenAILLM (api : Api) : BaseLLM :=
  {| class_name := "OpenAILLM";
     get_next_move := fun r => fst (llm_get_next_move "OpenAI" api r) |}.

End LLM.

(** ** src/controller/game_controller.py *)

Module Controller.

(** The strings ["white"] and ["black"] that name a side. *)
Inductive Color : Type := white | black.

Definition str_color (c : Color) : string :=
  match c with
  | white => "white"
  | black => "black"
  end.


(** A dict with the two keys ["white"] and ["black"]. *)
Record PerColor (A : Type) : Type := { at_white : A; at_black : A }.

Arguments at_white {A} p.
Arguments at_black {A} p.

Definition get {A : Type} (c : Color) (d : PerColor A) : A :=
  match c with
  | white => at_white d
  | black => at_black d
  end.

Definition set {A : Type} (c : Color) (v : A) (d : PerColor A) : PerColor A :=
  match c with
  | white => {| at_white := v; at_black := at_black d |}
  | black => {| at_white := at_white d; at_black := v |}
  end.

(** [self.game_stats]: the keys ["termination"] and ["result"] are absent
    until they are assigned. *)
Record GameStats : Type := {
  total_moves : Z;
  average_time_per_move : PerColor Q;
  longest_think_time : PerColor Q;
  termination : option string;
  result : option string
}.

Section WithEngine.
Context {E : RulesEngine}.

(** The attributes of a [GameController]; [stdout] collects what the
    controller's own methods print. *)
Record GameController : Type := {
  white_player : LLM.BaseLLM;
  black_player : LLM.BaseLLM;
  time_control : option Z;
  max_moves : option Z;
  game : Game.ChessGame;
  time_remaining : option (PerColor Q);
  move_times : PerColor (list Q);
  start_time : option datetime;
  game_stats : GameStats;
  stdout : list string
}.

Definition set_game (g : Game.ChessGame) (s : GameController) : GameController :=
  {| white_player := white_player s; black_player := black_player s;
     time_control := time_control s; max_moves := max_moves s;
     game := g;
     time_remaining := time_remaining s; move_times := move_times s;
     start_time := start_time s; game_stats := game_stats s;
     stdout := stdout s |}.

Definition set_time_remaining (t : option (PerColor Q)) (s : GameController)
  : GameController :=
  {| white_player := white_player s; black_player := black_player s;
     time_control := time_control s; max_moves := max_moves s;
     game := game s;
     time_remaining := t; move_times := move_times s;
     start_time := start_time s; game_stats := game_stats s;
     stdout := stdout s |}.

Definition set_move_times (m : PerColor (list Q)) (s : GameController)
  : GameController :=
  {| white_player := white_player s; black_player := black_player s;
     time_control := time_control s; max_moves := max_moves s;
     game := game s;
     time_remaining := time_remaining s; move_times := m;
     start_time := start_time s; game_stats := game_stats s;
     stdout := stdout s |}.

Definition set_start_time (t : option datetime) (s : GameController)
  : GameController :=
  {| white_player := white_player s; black_player := black_player s;
     time_control := time_control s; max_moves := max_moves s;
     game := game s;
     time_remaining := time_remaining s; move_times := move_times s;
     start_time := t; game_stats := game_stats s;
     stdout := stdout s |}.

Definition set_game_stats (st : GameStats) (s : GameController) : GameController :=
  {| white_player := white_player s; black_player := black_player s;
     time_control := time_control s; max_moves := max_moves s;
     game := game s;
     time_remaining := time_remaining s; move_times := move_times s;
     start_time := start_time s; game_stats := st;
     stdout := stdout s |}.

(** [print(line)]. *)
Definition print (line : string) (s : GameController) : GameController :=
  {| white_player := white_player s; black_player := black_player s;
     time_control := time_control s; max_moves := max_moves s;
     game := game s;
     time_remaining := time_remaining s; move_times := move_times s;
     start_time := start_time s; game_stats := game_stats s;
     stdout := stdout s ++ [line] |}.

(** [self.game_stats["termination"] = t]. *)
Definition set_termination (t : string) (s : GameController) : GameController :=
  set_game_stats
    {| total_moves := total_moves (game_stats s);
       average_time_per_move := average_time_per_move (game_stats s);
       longest_think_time := longest_think_time (game_stats s);
       termination := Some t;
       result := result (game_stats s) |} s.

(** [self.game_stats["result"] = r]. *)
Definition set_result (r : string) (s : GameController) : GameController :=
  set_game_stats
    {| total_moves := total_moves (game_stats s);
       average_time_per_move := average_time_per_move (game_stats s);
       longest_think_time := longest_think_time (game_stats s);
       termination := termination (game_stats s);
       result := Some r |} s.

(** Truth value of an [Optional[int]]: [None] and [0] are false. *)
Definition truthy (o : option Z) : bool :=
  match o with
  | Some z => negb (z =? 0)%Z
  | None => false
  end.

(** [GameController.__init__]; [now] is [datetime.now()] as read by
    [ChessGame.__init__]. *)
Definition init (white_player black_player : LLM.BaseLLM)
    (time_control max_moves : option Z) (now : datetime) : GameController :=
  {| white_player := white_player;
     black_player := black_player;
     time_control := time_control;
     max_moves := max_moves;
     game :=
       Game.init ("LLM-White (" ++ LLM.class_name white_player ++ ")")
                 ("LLM-Black (" ++ LLM.class_name black_player ++ ")") now;
     time_remaining :=
       match time_control with
       | Some tc =>
           if truthy time_control
           then Some {| at_white := inject_Z tc; at_black := inject_Z tc |}
           else None
       | None => None
       end;
     move_times := {| at_white := []; at_black := [] |};
     start_time := None;
     game_stats :=
       {| total_moves := 0;
          average_time_per_move := {| at_white := 0; at_black := 0 |};
          longest_think_time := {| at_white := 0; at_black := 0 |};
          termination := None;
          result := None |};
     stdout := [] |}.

Definition _get_current_player (s : GameController) : LLM.BaseLLM :=
  if turn (Game.board (game s)) then white_player s else black_player s.

(** Calling a [str]: [self.game.result] is a property, so
    [self.game.result()] calls the string it returns. *)
Definition call_str (r : string) : outcome string :=
  Raise (TypeError "'str' object is not callable").

Definition _is_game_finished (s : GameController) : outcome bool * GameController :=
  if Game.is_game_over (game s) then
    let s := set_termination "Normal chess ending" s in
    match call_str (Game.result (game s)) with
    | Ok r => (Ok true, set_result r s)
    | Raise e => (Raise e, s)
    end
  else if truthy (max_moves s)
          && match max_moves s with
             | Some m => (total_moves (game_stats s) >=? m)%Z
             | None => false
             end
  then (Ok true, set_termination "Maximum moves reached" s)
  else (Ok false, s).

(** The request sent to the player. *)
Definition request (s : GameController) : LLM.Request :=
  {| LLM.board_fen := Game.get_fen (game s);
     LLM.move_history :=
       map (fun t : string * string * string => snd (fst t))
           (Game.move_history (game s));
     LLM.legal_moves :=
       map (san (Game.board (game s)))
           (board_legal_moves (Game.board (game s))) |}.

(** [move_result.move = uci_move]. *)
Definition with_move (uci_move : string) (m : LLM.ChessMove) : LLM.ChessMove :=
  {| LLM.move := uci_move;
     LLM.explanation := LLM.explanation m;
     LLM.confidence := LLM.confidence m;
     LLM.thinking_time := LLM.thinking_time m |}.

(** The part of [_get_next_move] after the clock was charged: the inner
    [try] around [parse_san], then [make_move]. *)
Definition convert_and_move (color : Color) (move_result : LLM.ChessMove)
    (s : GameController) : option LLM.ChessMove * GameController :=
  let san_move := LLM.move move_result in
  match parse_san (Game.board (game s)) san_move with
  | None =>
      (None,
       print ("Invalid move format from " ++ str_color color ++ " player: "
                ++ LLM.move move_result) s)
  | Some m =>
      let move_result := with_move (uci m) move_result in
      let (success, g) :=
        Game.make_move (game s) (LLM.move move_result) san_move
          (LLM.explanation move_result ++ " (confidence: "
             ++ fmt_2f (LLM.confidence move_result) ++ ")") in
      (if success then Some move_result else None, set_game g s)
  end.

(** [except Exception as e] of [_get_next_move]. *)
Definition move_error (color : Color) (e : exn) (s : GameController)
  : option LLM.ChessMove * GameController :=
  (None,
   print ("Error getting move from " ++ str_color color ++ " player: "
            ++ str_exn e) s).

(** [_get_next_move]: [None] also stands for the [False] that is returned
    when [make_move] refuses the move. *)
Definition _get_next_move (player : LLM.BaseLLM) (color : Color)
    (s : GameController) : option LLM.ChessMove * GameController :=
  match LLM.get_next_move player (request s) with
  | Raise e => move_error color e s
  | Ok None =>
      (* the player returned [None]: the first attribute read raises *)
      match time_remaining s with
      | Some _ =>
          move_error color
            (AttributeError "'NoneType' object has no attribute 'thinking_time'") s
      | None =>
          move_error color
            (AttributeError "'NoneType' object has no attribute 'move'") s
      end
  | Ok (Some move_result) =>
      match time_remaining s with
      | Some tr =>
          let tr :=
            set color (get color tr - LLM.thinking_time move_result)%Q tr in
          let s := set_time_remaining (Some tr) s in
          if Qle_bool (get color tr) 0 then
            (None, set_termination (str_color color ++ " lost on time") s)
          else convert_and_move color move_result s
      | None => convert_and_move color move_result s
      end
  end.

(** [sum(l)]. *)
Definition sum (l : list Q) : Q := fold_left Qplus l 0%Q.

(** [len(l)], as the divisor. *)
Definition len (l : list Q) : Q := inject_Z (Z.of_nat (List.length l)).

Definition _update_stats (move : LLM.ChessMove) (color : Color)
    (s : GameController) : GameController :=
  let st := game_stats s in
  let times :=
    set color (get color (move_times s) ++ [LLM.thinking_time move])%list
        (move_times s) in
  let s := set_move_times times s in
  let average :=
    set color (sum (get color times) / len (get color times))%Q
        (average_time_per_move st) in
  let longest :=
    if negb (Qle_bool (LLM.thinking_time move) (get color (longest_think_time st)))
    then set color (LLM.thinking_time move) (longest_think_time st)
    else longest_think_time st in
  set_game_stats
    {| total_moves := total_moves st + 1;
       average_time_per_move := average;
       longest_think_time := longest;
       termination := termination st;
       result := result st |} s.

(** The text built in [export_game] before the optional lines. *)
Definition stats_header (st : GameStats) : string :=
  "Game Statistics:" ++ nl
    ++ "Total Moves: " ++ str_int (total_moves st) ++ nl
    ++ "Average Think Time - White: "
    ++ fmt_2f (at_white (average_time_per_move st)) ++ "s, "
    ++ "Black: " ++ fmt_2f (at_black (average_time_per_move st)) ++ "s" ++ nl
    ++ "Longest Think Time - White: "
    ++ fmt_2f (at_white (longest_think_time st)) ++ "s, "
    ++ "Black: " ++ fmt_2f (at_black (longest_think_time st)) ++ "s" ++ nl.

(** [export_game]: reading [self.game_stats["result"]] raises [KeyError]
    when the key was never assigned. *)
Definition export_game (s : GameController) : outcome string * GameController :=
  let s := print "Exporting game" s in
  match Game.export_pgn (game s) with
  | Raise e => (Raise e, s)
  | Ok pgn =>
      let stats_comment := stats_header (game_stats s) in
      let stats_comment :=
        match termination (game_stats s) with
        | Some t => stats_comment ++ "Termination: " ++ t ++ nl
        | None => stats_comment
        end in
      match result (game_stats s) with
      | None => (Raise (KeyError "result"), s)
      | Some r =>
          let stats_comment :=
            if negb (r =? "*") then stats_comment ++ "Result: " ++ r ++ nl
            else stats_comment in
          let s := print ("stats_comment " ++ stats_comment) s in
          (Ok (pgn ++ nl ++ nl ++ stats_comment), s)
      end
  end.

(** How the [while] loop of [play_game] is left. *)
Inductive loop_exit : Type :=
| Finished            (* the condition became false *)
| Broke               (* [break] after a failed turn *)
| Raised (e : exn).   (* an exception left the loop *)

(** The side to move: [color] in the loop of [play_game]. *)
Definition mover (s : GameController) : Color :=
  if turn (Game.board (game s)) then white else black.

(** What one test of the loop condition and, when it holds, one pass
    through the loop body lead to. *)
Inductive iteration : Type :=
| Next (s : GameController)                 (* the loop goes on *)
| Exit (how : loop_exit) (s : GameController).

Definition loop_body (s : GameController) : iteration :=
  match _is_game_finished s with
  | (Raise e, s) => Exit (Raised e) s
  | (Ok true, s) => Exit Finished s
  | (Ok false, s) =>
      let current_player := _get_current_player s in
      let color := mover s in
      match _get_next_move current_player color s with
      | (None, s) =>
          let s :=
            set_result (match color with
                        | white => "0-1"
                        | black => "1-0"
                        end) s in
          let s := set_termination ("Invalid move by " ++ str_color color) s in
          Exit Broke s
      | (Some move, s) => Next (_update_stats move color s)
      end
  end.

(** The [while] loop of [play_game], for at most [fuel] tests of its
    condition; [None] when the budget runs out. *)
Fixpoint match_loop (fuel : nat) (s : GameController)
  : option (loop_exit * GameController) :=
  match fuel with
  | O => None
  | S fuel' =>
      match loop_body s with
      | Exit how s => Some (how, s)
      | Next s => match_loop fuel' s
      end
  end.

(** The states the loop goes through: the state after each pass, the
    last one being the state the loop is left in. *)
Fixpoint match_states (fuel : nat) (s : GameController) : list GameController :=
  match fuel with
  | O => []
  | S fuel' =>
      match loop_body s with
      | Exit _ s => [s]
      | Next s => s :: match_states fuel' s
      end
  end.

(** The [except Exception as e] clause of [play_game]. *)
Definition on_error (e : exn) (s : GameController)
  : outcome string * GameController :=
  export_game (set_termination ("Error: " ++ str_exn e) s).

(** [play_game]: [now] is [datetime.now()]. *)
Definition play_game (fuel : nat) (now : datetime) (s : GameController)
  : option (outcome string * GameController) :=
  let s := set_start_time (Some now) s in
  match match_loop fuel s with
  | None => None
  | Some (Raised e, s) => Some (on_error e s)
  | Some (_, s) =>
      match export_game s with
      | (Raise e, s) => Some (on_error e s)
      | (Ok text, s) => Some (Ok text, s)
      end
  end.

End WithEngine.
End Controller.

(** ** A table of python-chess's answers

    [Opening] answers for the start position, for the twenty positions one
    move after it, and for the positions of the line 1. f3 e5 2. g4 Qh4#.
    A board is the stack of moves played from the start position, a move
    is its UCI text.  Every other position is [unknown]: no run below
    asks for its moves. *)

Module Opening.

Record Position : Type := {
  p_fen : string;
  (** the legal moves, in python-chess's order, as (uci, san) *)
  p_moves : list (string * string);
  p_checkmate : bool
}.

Definition white_first : list (string * string) :=
  [ ("g1h3", "Nh3"); ("g1f3", "Nf3"); ("b1c3", "Nc3"); ("b1a3", "Na3");
    ("h2h3", "h3"); ("g2g3", "g3"); ("f2f3", "f3"); ("e2e3", "e3");
    ("d2d3", "d3"); ("c2c3", "c3"); ("b2b3", "b3"); ("a2a3", "a3");
    ("h2h4", "h4"); ("g2g4", "g4"); ("f2f4", "f4"); ("e2e4", "e4");
    ("d2d4", "d4"); ("c2c4", "c4"); ("b2b4", "b4"); ("a2a4", "a4") ].

Definition black_first : list (string * string) :=
  [ ("g8h6", "Nh6"); ("g8f6", "Nf6"); ("b8c6", "Nc6"); ("b8a6", "Na6");
    ("h7h6", "h6"); ("g7g6", "g6"); ("f7f6", "f6"); ("e7e6", "e6");
    ("d7d6", "d6"); ("c7c6", "c6"); ("b7b6", "b6"); ("a7a6", "a6");
    ("h7h5", "h5"); ("g7g5", "g5"); ("f7f5", "f5"); ("e7e5", "e5");
    ("d7d5", "d5"); ("c7c5", "c5"); ("b7b5", "b5"); ("a7a5", "a5") ].

(** The position after each first move of White. *)
Definition fen_after_first : list (string * string) :=
  [ ("g1h3", "rnbqkbnr/pppppppp/8/8/8/7N/PPPPPPPP/RNBQKB1R b KQkq - 1 1");
    ("g1f3", "rnbqkbnr/pppppppp/8/8/8/5N2/PPPPPPPP/RNBQKB1R b KQkq - 1 1");
    ("b1c3", "rnbqkbnr/pppppppp/8/8/8/2N5/PPPPPPPP/R1BQKBNR b KQkq - 1 1");
    ("b1a3", "rnbqkbnr/pppppppp/8/8/8/N7/PPPPPPPP/R1BQKBNR b KQkq - 1 1");
    ("h2h3", "rnbqkbnr/pppppppp/8/8/8/7P/PPPPPPP1/RNBQKBNR b KQkq - 0 1");
    ("g2g3", "rnbqkbnr/pppppppp/8/8/8/6P1/PPPPPP1P/RNBQKBNR b KQkq - 0 1");
    ("f2f3", "rnbqkbnr/pppppppp/8/8/8/5P2/PPPPP1PP/RNBQKBNR b KQkq - 0 1");
    ("e2e3", "rnbqkbnr/pppppppp/8/8/8/4P3/PPPP1PPP/RNBQKBNR b KQkq - 0 1");
    ("d2d3", "rnbqkbnr/pppppppp/8/8/8/3P4/PPP1PPPP/RNBQKBNR b KQkq - 0 1");
    ("c2c3", "rnbqkbnr/pppppppp/8/8/8/2P5/PP1PPPPP/RNBQKBNR b KQkq - 0 1");
    ("b2b3", "rnbqkbnr/pppppppp/8/8/8/1P6/P1PPPPPP/RNBQKBNR b KQkq - 0 1");
    ("a2a3", "rnbqkbnr/pppppppp/8/8/8/P7/1PPPPPPP/RNBQKBNR b KQkq - 0 1");
    ("h2h4", "rnbqkbnr/pppppppp/8/8/7P/8/PPPPPPP1/RNBQKBNR b KQkq - 0 1");
    ("g2g4", "rnbqkbnr/pppppppp/8/8/6P1/8/PPPPPP1P/RNBQKBNR b KQkq - 0 1");
    ("f2f4", "rnbqkbnr/pppppppp/8/8/5P2/8/PPPPP1PP/RNBQKBNR b KQkq - 0 1");
    ("e2e4", "rnbqkbnr/pppppppp/8/8/4P3/8/PPPP1PPP/RNBQKBNR b KQkq - 0 1");
    ("d2d4", "rnbqkbnr/pppppppp/8/8/3P4/8/PPP1PPPP/RNBQKBNR b KQkq - 0 1");
    ("c2c4", "rnbqkbnr/pppppppp/8/8/2P5/8/PP1PPPPP/RNBQKBNR b KQkq - 0 1");
    ("b2b4", "rnbqkbnr/pppppppp/8/8/1P6/8/P1PPPPPP/RNBQKBNR b KQkq - 0 1");
    ("a2a4", "rnbqkbnr/pppppppp/8/8/P7/8/1PPPPPPP/RNBQKBNR b KQkq - 0 1") ].

(** After 1. f3 e5. *)
Definition white_second : list (string * string) :=
  [ ("g1h3", "Nh3"); ("e1f2", "Kf2"); ("b1c3", "Nc3"); ("b1a3", "Na3");
    ("f3f4", "f4");
    ("h2h3", "h3"); ("g2g3", "g3"); ("e2e3", "e3"); ("d2d3", "d3");
    ("c2c3", "c3"); ("b2b3", "b3"); ("a2a3", "a3");
    ("h2h4", "h4"); ("g2g4", "g4"); ("e2e4", "e4"); ("d2d4", "d4");
    ("c2c4", "c4"); ("b2b4", "b4"); ("a2a4", "a4") ].

(** After 1. f3 e5 2. g4. *)
Definition black_second : list (string * string) :=
  [ ("g8e7", "Ne7"); ("g8h6", "Nh6"); ("g8f6", "Nf6");
    ("f8e7", "Be7"); ("f8d6", "Bd6"); ("f8c5", "Bc5"); ("f8b4", "Bb4");
    ("f8a3", "Ba3");
    ("e8e7", "Ke7");
    ("d8e7", "Qe7"); ("d8f6", "Qf6"); ("d8g5", "Qg5"); ("d8h4", "Qh4#");
    ("b8c6", "Nc6"); ("b8a6", "Na6");
    ("h7h6", "h6"); ("g7g6", "g6"); ("f7f6", "f6"); ("d7d6", "d6");
    ("c7c6", "c6"); ("b7b6", "b6"); ("a7a6", "a6"); ("e5e4", "e4");
    ("h7h5", "h5"); ("g7g5", "g5"); ("f7f5", "f5"); ("d7d5", "d5");
    ("c7c5", "c5"); ("b7b5", "b5"); ("a7a5", "a5") ].

Definition unknown : Position :=
  {| p_fen := ""; p_moves := []; p_checkmate := false |}.

(** [l == key], for move stacks. *)
Fixpoint stack_eqb (l key : list string) : bool :=
  match l, key with
  | [], [] => true
  | x :: l', k :: key' => (x =? k) && stack_eqb l' key'
  | _, _ => false
  end.

(** First value stored under a key. *)
Fixpoint lookup (k : string) (t : list (string * string)) : option string :=
  match t with
  | [] => None
  | (k', v) :: rest => if k' =? k then Some v else lookup k rest
  end.

(** First key stored with a value. *)
Fixpoint lookup_key (v : string) (t : list (string * string)) : option string :=
  match t with
  | [] => None
  | (k, v') :: rest => if v' =? v then Some k else lookup_key v rest
  end.

Definition position (b : list string) : Position :=
  match b with
  | [] =>
      {| p_fen := "rnbqkbnr/pppppppp/8/8/8/8/PPPPPPPP/RNBQKBNR w KQkq - 0 1";
         p_moves := white_first;
         p_checkmate := false |}
  | [m] =>
      match lookup m fen_after_first with
      | Some f => {| p_fen := f; p_moves := black_first; p_checkmate := false |}
      | None => unknown
      end
  | _ =>
      if stack_eqb b ["f2f3"; "e7e5"] then
        {| p_fen := "rnbqkbnr/pppp1ppp/8/4p3/8/5P2/PPPPP1PP/RNBQKBNR w KQkq - 0 2";
           p_moves := white_second;
           p_checkmate := false |}
      else if stack_eqb b ["f2f3"; "e7e5"; "g2g4"] then
        {| p_fen := "rnbqkbnr/pppp1ppp/8/4p3/6P1/5P2/PPPPP2P/RNBQKBNR b KQkq - 0 2";
           p_moves := black_second;
           p_checkmate := false |}
      else if stack_eqb b ["f2f3"; "e7e5"; "g2g4"; "d8h4"] then
        {| p_fen := "rnb1kbnr/pppp1ppp/8/4p3/6Pq/5P2/PPPPP2P/RNBQKBNR w KQkq - 1 3";
           p_moves := [];
           p_checkmate := true |}
      else unknown
  end.

Definition is_file (c : ascii) : bool :=
  (97 <=? nat_of_ascii c)%nat && (nat_of_ascii c <=? 104)%nat.

Definition is_rank (c : ascii) : bool :=
  (49 <=? nat_of_ascii c)%nat && (nat_of_ascii c <=? 56)%nat.

Definition is_piece_symbol (c : ascii) : bool :=
  existsb (Ascii.eqb c) (list_ascii_of_string "pnbrqk").

(** The texts [Move.from_uci] accepts: two squares and, optionally, the
    piece promoted to. *)
Definition valid_uci (s : string) : bool :=
  match list_ascii_of_string s with
  | [f1; r1; f2; r2] => is_file f1 && is_rank r1 && is_file f2 && is_rank r2
  | [f1; r1; f2; r2; p] =>
      is_file f1 && is_rank r1 && is_file f2 && is_rank r2 && is_piece_symbol p
  | _ => false
  end.

Definition quote : string := String (ascii_of_nat 34) EmptyString.

(** The seven tags every [chess.pgn.Game] starts with. *)
Definition tag_roster : list (string * string) :=
  [ ("Event", "?"); ("Site", "?"); ("Date", "????.??.??"); ("Round", "?");
    ("White", "?"); ("Black", "?"); ("Result", "*") ].

(** [headers[k] = v]. *)
Fixpoint set_header (k v : string) (hs : list (string * string))
  : list (string * string) :=
  match hs with
  | [] => [(k, v)]
  | (k', v') :: rest =>
      if k' =? k then (k, v) :: rest else (k', v') :: set_header k v rest
  end.

Definition header_line (h : string * string) : string :=
  "[" ++ fst h ++ " " ++ quote ++ snd h ++ quote ++ "]".

Definition is_space (c : ascii) : bool :=
  let n := nat_of_ascii c in
  (n =? 32)%nat || ((9 <=? n)%nat && (n <=? 13)%nat).

Fixpoint lstrip (l : list ascii) : list ascii :=
  match l with
  | c :: rest => if is_space c then lstrip rest else l
  | [] => []
  end.

(** [comment.replace("}", "").strip()]. *)
Definition clean_comment (c : string) : string :=
  let l := filter (fun a => negb (Ascii.eqb a "}"%char)) (list_ascii_of_string c) in
  string_of_list_ascii (rev (lstrip (rev (lstrip l)))).

(** The move text of the main line, as the string exporter writes it
    without a column limit. *)
Fixpoint movetext (b : list string) (force_movenumber : bool)
    (nodes : list (string * string)) : string :=
  match nodes with
  | [] => ""
  | (m, comment) :: rest =>
      let number := str_int (Z.of_nat (List.length b / 2) + 1) in
      let san_text :=
        match lookup m (p_moves (position b)) with
        | Some s => s
        | None => ""
        end in
      (if Nat.even (List.length b) then number ++ ". "
       else if force_movenumber then number ++ "... " else "")
        ++ san_text ++ " "
        ++ (if comment =? "" then ""
            else "{ " ++ clean_comment comment ++ " } ")
        ++ movetext (b ++ [m])%list (negb (comment =? "")) rest
  end.

Definition pgn_text (hs : list (string * string)) (nodes : list (string * string))
  : string :=
  let all := fold_left (fun acc h => set_header (fst h) (snd h) acc) hs tag_roster in
  let result :=
    match lookup "Result" all with
    | Some r => r
    | None => "*"
    end in
  join nl (map header_line all) ++ nl ++ nl ++ movetext [] true nodes ++ result.

(** The move tables, and the check that a table names every move once,
    by a UCI text that [from_uci] accepts, and gives every move its own
    notation. *)
Definition tables : list (list (string * string)) :=
  [ white_first; black_first; white_second; black_second; [] ].

Fixpoint distinctb (l : list string) : bool :=
  match l with
  | [] => true
  | x :: rest => negb (str_in x rest) && distinctb rest
  end.

(** The texts that [parse_san] reads as the null move, and its UCI
    text. *)
Definition null_san (s : string) : bool :=
  str_in s ["--"; "Z0"; "0000"; "@@@@"].

Definition null_move : string := "0000".

Definition table_ok (t : list (string * string)) : bool :=
  distinctb (map fst t) && distinctb (map snd t)
    && forallb valid_uci (map fst t).

#[export] Instance engine : RulesEngine := {
  Board := list string;
  Move := string;
  start_board := [];
  turn := fun b => Nat.even (List.length b);
  board_legal_moves := fun b => map fst (p_moves (position b));
  move_eqb := String.eqb;
  push := fun b m => (b ++ [m])%list;
  board_is_game_over := fun b => p_checkmate (position b);
  is_checkmate := fun b => p_checkmate (position b);
  san := fun b m =>
    match lookup m (p_moves (position b)) with
    | Some s => s
    | None => ""
    end;
  parse_san := fun b s =>
    match lookup_key s (p_moves (position b)) with
    | Some m => Some m
    | None => if null_san s then Some null_move else None
    end;
  uci := fun m => m;
  from_uci := fun s =>
    if s =? null_move then Some null_move
    else if valid_uci s then Some s else None;
  from_uci_error := fun s => "invalid uci: '" ++ s ++ "'";
  fen := fun b => p_fen (position b);
  pgn_str := pgn_text
}.

End Opening.

(** ** Notions used in the statements *)

Module Notions.
Section WithEngine.
Context {E : RulesEngine}.

(** The counter of the statistics equals the length of the history. *)
Definition counts_agree (s : Controller.GameController) : Prop :=
  Controller.total_moves (Controller.game_stats s)
  = Z.of_nat (List.length (Game.move_history (Controller.game s))).

(** The clocks of [later] are not above the clocks of [earlier]. *)
Definition clocks_ge (earlier later : Controller.GameController) : Prop :=
  match Controller.time_remaining earlier, Controller.time_remaining later with
  | Some a, Some b =>
      (Controller.at_white b <= Controller.at_white a)%Q
      /\ (Controller.at_black b <= Controller.at_black a)%Q
  | None, None => True
  | _, _ => False
  end.

(** A player whose reported thinking times are never negative. *)
Definition nonneg_times (p : LLM.BaseLLM) : Prop :=
  forall (r : LLM.Request) (m : LLM.ChessMove),
    LLM.get_next_move p r = Ok (Some m) -> (0 <= LLM.thinking_time m)%Q.

(** The score that records a loss of [c]. *)
Definition loss (c : Controller.Color) : string :=
  match c with
  | Controller.white => "0-1"
  | Controller.black => "1-0"
  end.

(** The clock of [c] after [t] seconds are charged to it. *)
Definition charged (c : Controller.Color) (t : Q)
    (tr : Controller.PerColor Q) : Controller.PerColor Q :=
  Controller.set c (Controller.get c tr - t)%Q tr.

(** The charge leaves the side its turn: the match is untimed, or the
    clock stays above zero. *)
Definition clock_allows (s : Controller.GameController) (c : Controller.Color)
    (t : Q) : Prop :=
  match Controller.time_remaining s with
  | None => True
  | Some tr => (0 < Controller.get c tr - t)%Q
  end.

(** The statistics without the termination reason. *)
Definition figures (st : Controller.GameStats)
  : Z * Controller.PerColor Q * Controller.PerColor Q * option string :=
  (Controller.total_moves st, Controller.average_time_per_move st,
   Controller.longest_think_time st, Controller.result st).

(** The attributes that are set once, by [__init__] or at the start of
    [play_game]. *)
Definition setup (s : Controller.GameController)
  : LLM.BaseLLM * LLM.BaseLLM * option Z * option Z * option datetime :=
  (Controller.white_player s, Controller.black_player s,
   Controller.time_control s, Controller.max_moves s,
   Controller.start_time s).

(** The state an iteration leads to. *)
Definition after (i : Controller.iteration) : Controller.GameController :=
  match i with
  | Controller.Next s => s
  | Controller.Exit _ s => s
  end.

(** Both clocks are above zero, or the match is untimed. *)
Definition positive_clocks (s : Controller.GameController) : Prop :=
  match Controller.time_remaining s with
  | None => True
  | Some tr => (0 < Controller.at_white tr)%Q /\ (0 < Controller.at_black tr)%Q
  end.

(** The annotation recorded with a move. *)
Definition annotation (m : LLM.ChessMove) : string :=
  LLM.explanation m ++ " (confidence: " ++ fmt_2f (LLM.confidence m) ++ ")".

End WithEngine.







(** A response that is no JSON, or lacks the move. *)
Definition malformed (r : LLM.ApiResponse) : bool :=
  match r with
  | LLM.CallRaises _ => false
  | LLM.Replies _ (LLM.NotJson _) => true
  | LLM.Replies _ (LLM.Json o) =>
      match LLM.j_move o with
      | None => true
      | Some _ => false
      end
  end.

(** A parsed response whose move is not in the list of legal moves. *)
Definition illegal_move (legal : list string) (r : LLM.ApiResponse) : bool :=
  match r with
  | LLM.Replies _ (LLM.Json o) =>
      match LLM.j_move o with
      | Some mv => negb (str_in mv legal)
      | None => false
      end
  | _ => false
  end.

End Notions.

(** ** Concrete matches *)

Module Scenario.

Definition now : datetime := {| year := 2024; month := 3; day := 9 |}.

(** A player that answers with the first legal move, after [t] seconds. *)
Definition first_legal (t : Q) : LLM.BaseLLM :=
  {| LLM.class_name := "FirstLegal";
     LLM.get_next_move := fun r =>
       Ok (Some {| LLM.move := hd "" (LLM.legal_moves r);
                   LLM.explanation := "first";
                   LLM.confidence := 1;
                   LLM.thinking_time := t |}) |}.

(** A player that plays the moves of a script, one per turn, each after
    [t] seconds. *)
Definition scripted (script : list string) (t : Q) : LLM.BaseLLM :=
  {| LLM.class_name := "Scripted";
     LLM.get_next_move := fun r =>
       Ok (Some {| LLM.move :=
                     nth (List.length (LLM.move_history r) / 2) script "";
                   LLM.explanation := "book";
                   LLM.confidence := 9 # 10;
                   LLM.thinking_time := t |}) |}.

(** Untimed, at most one move, both players answer with the first legal
    move. *)
Definition one_move : Controller.GameController :=
  Controller.init (E := Opening.engine)
    (first_legal (1 # 2)) (first_legal (3 # 2)) None (Some 1%Z) now.

(** Ten seconds a side; White answers e4 after fifteen seconds. *)
Definition slow_white : Controller.GameController :=
  Controller.init (E := Opening.engine)
    (scripted ["e4"] 15) (scripted ["e5"] 1) (Some 10%Z) None now.

(** Five minutes a side, at most two moves. *)
Definition two_moves : Controller.GameController :=
  Controller.init (E := Opening.engine)
    (scripted ["e4"] 2) (scripted ["e5"] 3) (Some 300%Z) (Some 2%Z) now.


(** 1. f3 e5 2. g4 Qh4#, untimed and without a move limit. *)
Definition fools_mate : Controller.GameController :=
  Controller.init (E := Opening.engine)
    (scripted ["f3"; "g4"] 1) (scripted ["e5"; "Qh4#"] 1) None None now.

(** The position after 1. f3 e5 2. g4 Qh4#: White is checkmated. *)
Definition mated : Game.ChessGame (E := Opening.engine) :=
  @Game.Build_ChessGame Opening.engine
    ["f2f3"; "e7e5"; "g2g4"; "d8h4"] "w" "b" [] now.

Definition good_reply : LLM.Body :=
  LLM.Json {| LLM.j_move := Some "e4";
              LLM.j_explanation := Some "centre";
              LLM.j_confidence := Some (Ok (9 # 10)) |}.

Definition illegal_reply : LLM.Body :=
  LLM.Json {| LLM.j_move := Some "e5";
              LLM.j_explanation := Some "centre";
              LLM.j_confidence := Some (Ok (9 # 10)) |}.

(** The first response is no JSON; every later one would be fine. *)
Definition malformed_first : LLM.Api := fun i _ =>
  match i with
  | 1%nat => LLM.Replies 1 (LLM.NotJson "Expecting value: line 1 column 1 (char 0)")
  | _ => LLM.Replies 2 good_reply
  end.

(** Two illegal moves, then a legal one. *)
Definition illegal_twice : LLM.Api := fun i _ =>
  match i with
  | 1%nat => LLM.Replies 1 illegal_reply
  | 2%nat => LLM.Replies 2 illegal_reply
  | _ => LLM.Replies 3 good_reply
  end.

(** The state [slow_white] is in when the loop is left. *)
Definition forfeited : Controller.GameController :=
  Notions.after (Controller.loop_body slow_white).

(** Untimed; White is the Anthropic adapter over [malformed_first]. *)
Definition malformed_white : Controller.GameController :=
  Controller.init (E := Opening.engine)
    (LLM.AnthropicLLM malformed_first) (LLM.OpenAILLM illegal_twice)
    None None now.

End Scenario.

(** ** Further notions and concrete data *)

Module Derived.
Section WithEngine.
Context {E : RulesEngine}.

(** Every recorded move is a text that [Move.from_uci] reads. *)
Definition recorded_ok (g : Game.ChessGame) : Prop :=
  Forall (fun r : string * string * string => from_uci (fst (fst r)) <> None)
         (Game.move_history g).

(** A sequence of calls [make_move(move_uci, move_san, explanation)],
    whatever each of them returns. *)
Fixpoint make_moves (g : Game.ChessGame)
    (calls : list (string * string * string)) : Game.ChessGame :=
  match calls with
  | [] => g
  | (u, sn, ex) :: rest => make_moves (snd (Game.make_move g u sn ex)) rest
  end.

End WithEngine.
End Derived.

(** ** src/ui/chess_utils.py *)

Module ChessUtils.

Definition quote : string := String (ascii_of_nat 34) EmptyString.

(** The text before the rows, line by line. *)
Definition history_head : string :=
  join nl
  [
    "";
    "        <div class=" ++ quote ++ "move-history" ++ quote ++ ">";
    "            <table style=" ++ quote ++ "width: 100%;" ++ quote ++ ">";
    "                <thead>";
    "                    <tr>";
    "                        <th>Move</th>";
    "                        <th>White</th>";
    "                        <th>Black</th>";
    "                    </tr>";
    "                </thead>";
    "                <tbody>";
    "    "
  ].

(** The text after the rows, line by line. *)
Definition history_tail : string :=
  join nl
  [
    "";
    "                </tbody>";
    "            </table>";
    "        </div>";
    "        ";
    "        <style>";
    "            .move-history {";
    "                margin: 20px;";
    "                padding: 15px;";
    "                background: white;";
    "                border-radius: 8px;";
    "                box-shadow: 0 2px 4px rgba(0, 0, 0, 0.05);";
    "            }";
    "            .move-history table {";
    "                border-collapse: collapse;";
    "            }";
    "            .move-history th, .move-history td {";
    "                padding: 8px;";
    "                text-align: left;";
    "                border-bottom: 1px solid #eee;";
    "            }";
    "            .move-history small {";
    "                color: #666;";
    "                font-size: 0.85em;";
    "            }";
    "        </style>";
    "    "
  ].

(** [f"{moves[i][1]}<br/><small>{moves[i][2]}</small>" if i < len(moves)
    else ""]. *)
Definition cell (moves : list (string * string * string)) (i : nat) : string :=
  match nth_error moves i with
  | Some m => snd (fst m) ++ "<br/><small>" ++ snd m ++ "</small>"
  | None => ""
  end.

(** The row appended for [move_num], [white_move] and [black_move]. *)
Definition row (move_num : Z) (white_move black_move : string) : string :=
  nl ++ "            <tr>" ++ nl
    ++ "                <td>" ++ str_int move_num ++ ".</td>" ++ nl
    ++ "                <td>" ++ white_move ++ "</td>" ++ nl
    ++ "                <td>" ++ black_move ++ "</td>" ++ nl
    ++ "            </tr>" ++ nl
    ++ "        ".

(** [for i in range(0, len(moves), 2)], from [i] on, for at most [fuel]
    passes. *)
Fixpoint rows_from (moves : list (string * string * string))
    (fuel i : nat) : list string :=
  match fuel with
  | O => []
  | S fuel' =>
      if (i <? List.length moves)%nat then
        let move_num := (Z.of_nat i / 2 + 1)%Z in
        let white_move := cell moves i in
        let black_move := cell moves (i + 1) in
        row move_num white_move black_move :: rows_from moves fuel' (i + 2)
      else []
  end.

(** The list [rows] when the loop is left. *)
Definition rows (moves : list (string * string * string)) : list string :=
  rows_from moves (List.length moves) 0.

Definition get_move_history_html (moves : list (string * string * string))
  : string :=
  history_head ++ String.concat "" (rev (rows moves)) ++ history_tail.

(** What a move is shown as. *)
Definition shown (m : string * string * string) : string :=
  snd (fst m) ++ "<br/><small>" ++ snd m ++ "</small>".

(** The rows of a list of moves taken two at a time, numbered from [k]. *)
Fixpoint paired (k : Z) (moves : list (string * string * string))
  : list string :=
  match moves with
  | [] => []
  | w :: rest =>
      match rest with
      | [] => [row k (shown w) ""]
      | b :: rest' => row k (shown w) (shown b) :: paired (k + 1) rest'
      end
  end.

End ChessUtils.

(** ** src/ui/app.py *)

Module App.
Section WithEngine.
Context {E : RulesEngine}.

(** The keys of [st.session_state] that [play_single_move] uses, with
    what [st.error] has shown.  [current_game] is [None] or the game of
    the controller: [main] assigns it [game_controller.game], the same
    object, so it is kept as the flag that it is set. *)
Record Session : Type := {
  game_controller : option Controller.GameController;
  current_game : bool;
  game_in_progress : bool;
  last_move_count : Z;
  game_finished : bool;
  pgn : option string;
  errors : list string
}.

(** [except Exception as e] of [play_single_move], the controller being
    in state [c]. *)
Definition on_exception (e : exn) (c : Controller.GameController)
    (st : Session) : option bool * Session :=
  (Some false,
   {| game_controller := Some c;
      current_game := current_game st;
      game_in_progress := game_in_progress st;
      last_move_count := last_move_count st;
      game_finished := true;
      pgn := pgn st;
      errors := errors st ++ ["Error during move: " ++ str_exn e] |}).

(** [game_finished = True; pgn = game_controller.export_game();
    return False]. *)
Definition finish (c : Controller.GameController) (st : Session)
  : option bool * Session :=
  let st :=
    {| game_controller := Some c;
       current_game := current_game st;
       game_in_progress := game_in_progress st;
       last_move_count := last_move_count st;
       game_finished := true;
       pgn := pgn st;
       errors := errors st |} in
  match Controller.export_game c with
  | (Ok text, c) =>
      (Some false,
       {| game_controller := Some c;
          current_game := current_game st;
          game_in_progress := game_in_progress st;
          last_move_count := last_move_count st;
          game_finished := game_finished st;
          pgn := Some text;
          errors := errors st |})
  | (Raise e, c) => on_exception e c st
  end.

(** [play_single_move]: [None] is returned when there is no controller
    or the game is finished. *)
Definition play_single_move (st : Session) : option bool * Session :=
  match game_controller st with
  | None => (None, st)
  | Some c =>
      if negb (game_finished st) then
        let current_player := Controller._get_current_player c in
        let color := Controller.mover c in
        if Game.is_game_over (Controller.game c) then finish c st
        else
          match Controller._get_next_move current_player color c with
          | (Some _, c) =>
              if current_game st then
                (Some true,
                 {| game_controller := Some c;
                    current_game := current_game st;
                    game_in_progress := game_in_progress st;
                    last_move_count :=
                      Z.of_nat
                        (List.length (Game.move_history (Controller.game c)));
                    game_finished := game_finished st;
                    pgn := pgn st;
                    errors := errors st |})
              else
                on_exception
                  (AttributeError
                     "'NoneType' object has no attribute 'move_history'")
                  c st
          | (None, c) => finish c st
          end
      else (None, st)
  end.

(** [initialize_session_state] when no key is set yet. *)
Definition initial : Session :=
  {| game_controller := None;
     current_game := false;
     game_in_progress := false;
     last_move_count := 0;
     game_finished := false;
     pgn := None;
     errors := [] |}.

(** The assignments of [main] under the button that starts a game, [c]
    being the controller that [create_game_controller] returned. *)
Definition start_new_game (c : Controller.GameController) (st : Session)
  : Session :=
  {| game_controller := Some c;
     current_game := true;
     game_in_progress := true;
     last_move_count := 0;
     game_finished := false;
     pgn := None;
     errors := errors st |}.

(** [n] calls of [play_single_move] in a row. *)
Fixpoint play_moves (n : nat) (st : Session) : Session :=
  match n with
  | O => st
  | S n' => play_moves n' (snd (play_single_move st))
  end.

End WithEngine.
End App.

(** ** Notions about the bookkeeping of a match *)

Module Ledger.
Section WithEngine.
Context {E : RulesEngine}.

(** There are as many recorded samples as counted moves. *)
Definition samples_counted (s : Controller.GameController) : Prop :=
  Z.of_nat (List.length (Controller.at_white (Controller.move_times s))
            + List.length (Controller.at_black (Controller.move_times s)))
  = Controller.total_moves (Controller.game_stats s).

(** The clocks after the side to move is charged [t] seconds. *)
Definition charge_mover (s : Controller.GameController) (t : Q)
  : option (Controller.PerColor Q) :=
  match Controller.time_remaining s with
  | None => None
  | Some tr => Some (Notions.charged (Controller.mover s) t tr)
  end.

End WithEngine.
End Ledger.

(** ** Further providers *)

Module Script.

(** The request of the first turn of a match. *)
Definition first_request : LLM.Request :=
  Controller.request (E := Opening.engine) Scenario.one_move.

(** A move outside the list, then a legal one four seconds after the
    start. *)
Definition legal_second : LLM.Api := fun i _ =>
  match i with
  | 1%nat => LLM.Replies 1 Scenario.illegal_reply
  | _ => LLM.Replies 4 Scenario.good_reply
  end.

(** A move outside the list, then the client fails. *)
Definition call_fails_second : LLM.Api := fun i _ =>
  match i with
  | 1%nat => LLM.Replies 1 Scenario.illegal_reply
  | _ => LLM.CallRaises (Exception "Connection error.")
  end.

(** A move outside the list at every attempt, the [i]-th response
    arriving after [i] seconds. *)
Definition always_illegal : LLM.Api := fun i _ =>
  LLM.Replies (inject_Z (Z.of_nat i)) Scenario.illegal_reply.

(** A minute a side; White answers e5, which no white piece can play. *)
Definition wrong_move : Controller.GameController :=
  Controller.init (E := Opening.engine)
    (Scenario.scripted ["e5"] 7) (Scenario.scripted ["e5"] 1)
    (Some 60%Z) None Scenario.now.

(** A minute a side; White answers "--", which [parse_san] reads as the
    null move. *)
Definition passes : Controller.GameController :=
  Controller.init (E := Opening.engine)
    (Scenario.scripted ["--"] 7) (Scenario.scripted ["e5"] 1)
    (Some 60%Z) None Scenario.now.

End Script.

(** * Proofs *)

(** ** The table satisfies the guarantees assumed of the engine *)

Lemma lookup_key_fst (t : list (string * string)) (v k : string) :
  Opening.lookup_key v t = Some k -> In k (map fst t).
Proof.
  induction t as [|[k0 v0] t IH]; simpl; [discriminate|].
  destruct (v0 =? v).
  - intros [= ->]. now left.
  - intros H. right. now apply IH.
Qed.

Lemma lookup_snd (t : list (string * string)) (k v : string) :
  Opening.lookup k t = Some v -> In v (map snd t).
Proof.
  induction t as [|[k0 v0] t IH]; simpl; [discriminate|].
  destruct (k0 =? k).
  - intros [= ->]. now left.
  - intros H. right. now apply IH.
Qed.

Lemma lookup_defined (t : list (string * string)) (k : string) :
  In k (map fst t) -> exists v, Opening.lookup k t = Some v.
Proof.
  induction t as [|[k0 v0] t IH]; simpl; [contradiction|].
  intros [-> | H].
  - rewrite String.eqb_refl. now exists v0.
  - destruct (k0 =? k); [now exists v0 | now apply IH].
Qed.

Lemma str_in_In (x : string) (l : list string) :
  str_in x l = true <-> In x l.
Proof.
  unfold str_in. rewrite existsb_exists. split.
  - intros (y & Hy & Heq). apply String.eqb_eq in Heq. now subst.
  - intros H. exists x. split; [assumption | apply String.eqb_refl].
Qed.

Lemma lookup_round_trip (t : list (string * string)) (k v : string) :
  Opening.distinctb (map snd t) = true ->
  Opening.lookup k t = Some v -> Opening.lookup_key v t = Some k.
Proof.
  induction t as [|[k0 v0] t IH]; simpl; [discriminate|].
  intros Hd. apply andb_prop in Hd as [Hfresh Hd].
  destruct (k0 =? k) eqn:Hk.
  - intros [= ->]. rewrite String.eqb_refl. apply String.eqb_eq in Hk. now subst.
  - intros Hl. destruct (v0 =? v) eqn:Hv.
    + apply String.eqb_eq in Hv. subst v0.
      apply lookup_snd in Hl. apply str_in_In in Hl.
      rewrite Hl in Hfresh. discriminate.
    + now apply IH.
Qed.

Lemma tables_ok : forallb Opening.table_ok Opening.tables = true.
Proof. vm_compute. reflexivity. Qed.

Lemma position_table (b : list string) :
  In (Opening.p_moves (Opening.position b)) Opening.tables.
Proof.
  unfold Opening.position, Opening.tables.
  destruct b as [|m [|m' b]].
  - cbn. now left.
  - destruct (Opening.lookup m Opening.fen_after_first); cbn; auto 6.
  - repeat match goal with
           | |- context [if ?c then _ else _] => destruct c
           end; cbn; auto 6.
Qed.

Lemma position_ok (b : list string) :
  Opening.table_ok (Opening.p_moves (Opening.position b)) = true.
Proof.
  pose proof tables_ok as H. rewrite forallb_forall in H.
  apply H, position_table.
Qed.

Lemma opening_laws : RulesEngineLaws Opening.engine.
Proof.
  constructor; cbn.
  - intros m1 m2. apply String.eqb_eq.
  - auto.
  - intros b m Hin.
    pose proof (position_ok b) as Hok. unfold Opening.table_ok in Hok.
    apply andb_prop in Hok as [Hok _]. apply andb_prop in Hok as [_ Hd].
    destruct (lookup_defined _ _ Hin) as [v Hv]. rewrite Hv.
    now rewrite (lookup_round_trip _ _ _ Hd Hv).
  - intros b m Hin.
    pose proof (position_ok b) as Hok. unfold Opening.table_ok in Hok.
    apply andb_prop in Hok as [_ Hv]. rewrite forallb_forall in Hv.
    rewrite (Hv m Hin).
    destruct (m =? Opening.null_move) eqn:Hn; [|reflexivity].
    apply String.eqb_eq in Hn. now rewrite Hn.
Qed.

(** ** The game wrapper *)

Section GameFacts.
Context {E : RulesEngine} {L : RulesEngineLaws E}.

Lemma is_legal_In (b : Board) (m : Move) :
  is_legal b m = true <-> In m (board_legal_moves b).
Proof.
  unfold is_legal. rewrite existsb_exists. split.
  - intros (m' & Hin & Heq). apply move_eqb_eq in Heq. now subst.
  - intros Hin. exists m. split; [assumption | now apply move_eqb_eq].
Qed.

(** C9.  In a position that the engine reports as checkmate, [result]
    gives the win to the side that is not to move: "0-1" (Black wins) when
    White is to move, "1-0" (White wins) when Black is to move. *)
Theorem result_at_checkmate (g : Game.ChessGame) :
  is_checkmate (Game.board g) = true ->
  Game.result g = (if turn (Game.board g) then "0-1" else "1-0").
Proof.
  intros Hmate. unfold Game.result, Game.is_game_over.
  rewrite (checkmate_is_game_over _ Hmate), Hmate. cbn.
  now destruct (turn (Game.board g)).
Qed.

(** [make_move] applies a move exactly when its text reads as a move of
    the legal set of the board it is given; otherwise the game is left as
    it was. *)
Lemma make_move_spec (g : Game.ChessGame) (u sn ex : string) :
  match Game.make_move g u sn ex with
  | (true, g') =>
      exists m, from_uci u = Some m /\ In m (board_legal_moves (Game.board g))
                /\ Game.board g' = push (Game.board g) m
                /\ Game.move_history g' = (Game.move_history g ++ [(u, sn, ex)])%list
  | (false, g') =>
      g' = g
      /\ forall m, from_uci u = Some m -> ~ In m (board_legal_moves (Game.board g))
  end.
Proof.
  unfold Game.make_move. destruct (from_uci u) as [m|] eqn:Hu.
  - destruct (is_legal (Game.board g) m) eqn:Hl.
    + exists m. rewrite is_legal_In in Hl. cbn. auto.
    + split; [reflexivity|]. intros m' [= <-] Hin.
      apply is_legal_In in Hin. congruence.
  - split; [reflexivity | discriminate].
Qed.

End GameFacts.

Lemma result_at_checkmate_witness :
  is_checkmate (Game.board Scenario.mated) = true
  /\ Game.result Scenario.mated = "0-1".
Proof.
  split.
  - reflexivity.
  - exact (result_at_checkmate (L := opening_laws) Scenario.mated eq_refl).
Defined.

(** ** What a turn leaves alone *)

(** Case analysis on an innermost scrutinee of the goal. *)
Ltac break_match :=
  match goal with
  | |- context [match ?x with _ => _ end] =>
      lazymatch x with
      | context [match _ with _ => _ end] => fail
      | _ => destruct x eqn:?
      end
  end.

Ltac unfold_turn :=
  unfold Controller._get_next_move, Controller.convert_and_move,
    Controller.move_error.

Ltac frame_turn := unfold_turn; repeat break_match; reflexivity.

Section Frames.
Context {E : RulesEngine}.

Import Controller Notions.

Lemma make_move_frame (g : Game.ChessGame) (u sn ex : string) :
  match Game.make_move g u sn ex with
  | (true, g') =>
      Game.move_history g' = (Game.move_history g ++ [(u, sn, ex)])%list
  | (false, g') => g' = g
  end.
Proof.
  unfold Game.make_move.
  destruct (from_uci u); [destruct (is_legal _ _)|]; reflexivity.
Qed.

Lemma finished_frame (s : GameController) :
  let s' := snd (_is_game_finished s) in
  setup s' = setup s /\ game s' = game s
  /\ time_remaining s' = time_remaining s /\ move_times s' = move_times s
  /\ figures (game_stats s') = figures (game_stats s).
Proof.
  unfold _is_game_finished, call_str.
  repeat break_match; cbn; auto.
Qed.

Lemma turn_setup (p : LLM.BaseLLM) (c : Color) (s : GameController) :
  setup (snd (_get_next_move p c s)) = setup s.
Proof. frame_turn. Qed.

Lemma turn_move_times (p : LLM.BaseLLM) (c : Color) (s : GameController) :
  move_times (snd (_get_next_move p c s)) = move_times s.
Proof. frame_turn. Qed.

Lemma turn_figures (p : LLM.BaseLLM) (c : Color) (s : GameController) :
  figures (game_stats (snd (_get_next_move p c s))) = figures (game_stats s).
Proof. frame_turn. Qed.

(** A turn that yields a move has recorded exactly one more move; a turn
    that yields none has left the game as it was. *)
Lemma turn_history (p : LLM.BaseLLM) (c : Color) (s : GameController) :
  match _get_next_move p c s with
  | (Some _, s') =>
      exists r, Game.move_history (game s')
                = (Game.move_history (game s) ++ [r])%list
  | (None, s') => game s' = game s
  end.
Proof.
  unfold_turn.
  repeat break_match; cbn; try reflexivity;
    match goal with
    | H : Game.make_move ?g ?u ?sn ?ex = _ |- _ =>
        pose proof (make_move_frame g u sn ex) as Hm; rewrite H in Hm; cbn in Hm
    end; eauto.
Qed.

End Frames.

(** ** The move counter and the history *)

Section Counting.
Context {E : RulesEngine}.

Import Controller Notions.

Lemma update_stats_frame (mv : LLM.ChessMove) (c : Color) (s : GameController) :
  let s' := _update_stats mv c s in
  setup s' = setup s /\ game s' = game s
  /\ time_remaining s' = time_remaining s
  /\ total_moves (game_stats s') = (total_moves (game_stats s) + 1)%Z
  /\ result (game_stats s') = result (game_stats s)
  /\ termination (game_stats s') = termination (game_stats s).
Proof. cbn. auto 7. Qed.

Lemma init_counts_agree (w b : LLM.BaseLLM) (tc mm : option Z) (now : datetime) :
  counts_agree (init w b tc mm now).
Proof. reflexivity. Qed.

Lemma loop_body_counts (s : GameController) :
  counts_agree s ->
  match loop_body s with
  | Next s' =>
      counts_agree s'
      /\ (exists r, Game.move_history (game s')
                    = (Game.move_history (game s) ++ [r])%list)
      /\ total_moves (game_stats s') = (total_moves (game_stats s) + 1)%Z
  | Exit _ s' =>
      counts_agree s'
      /\ Game.move_history (game s') = Game.move_history (game s)
      /\ total_moves (game_stats s') = total_moves (game_stats s)
  end.
Proof.
  unfold counts_agree, loop_body. intros Hs.
  pose proof (finished_frame s) as Hf.
  destruct (_is_game_finished s) as [[[|]|e] s1]; cbn in Hf;
    destruct Hf as (_ & Hg & _ & _ & Hfig);
    injection Hfig as Ht _ _ _; rewrite <- Hg in Hs; rewrite <- Ht in Hs;
    rewrite <- Hg, <- Ht; auto.
  pose proof (turn_history (_get_current_player s1) (mover s1) s1) as Hh.
  pose proof (turn_figures (_get_current_player s1) (mover s1) s1) as Hfig.
  destruct (_get_next_move (_get_current_player s1) (mover s1) s1)
    as [[mv|] s2]; cbn in Hfig; injection Hfig as Ht2 _ _ _.
  - destruct Hh as [r Hr]. cbn. rewrite Ht2, Hr, Hs.
    rewrite length_app. cbn. repeat split; eauto; lia.
  - cbn. rewrite Ht2, Hh. auto.
Qed.

(** C10.  From a state in which [total_moves] is the length of the move
    history, one test of the loop condition and one pass through the loop
    body of [play_game] lead to such a state again: a pass that goes on
    has appended exactly one record and added exactly one to
    [total_moves]; a pass that leaves the loop has changed neither.  So
    the two agree in every state the loop goes through and in the state
    it is left in. *)
Theorem total_moves_is_history_length (s : GameController) :
  counts_agree s ->
  match loop_body s with
  | Next s' =>
      counts_agree s'
      /\ (exists r, Game.move_history (game s')
                    = (Game.move_history (game s) ++ [r])%list)
      /\ total_moves (game_stats s') = (total_moves (game_stats s) + 1)%Z
  | Exit _ s' =>
      counts_agree s'
      /\ Game.move_history (game s') = Game.move_history (game s)
      /\ total_moves (game_stats s') = total_moves (game_stats s)
  end
  /\ (forall fuel, Forall counts_agree (match_states fuel s))
  /\ (forall fuel how s',
        match_loop fuel s = Some (how, s') -> counts_agree s').
Proof.
  intros Hs. split; [now apply loop_body_counts|]. split.
  - intros fuel. revert s Hs.
    induction fuel as [|fuel IH]; intros s Hs; cbn; [constructor|].
    pose proof (loop_body_counts s Hs) as Hb.
    destruct (loop_body s) as [s1|how s1].
    + constructor; [tauto | apply IH; tauto].
    + constructor; [tauto | constructor].
  - intros fuel. revert s Hs.
    induction fuel as [|fuel IH]; intros s Hs how s'; cbn; [discriminate|].
    pose proof (loop_body_counts s Hs) as Hb.
    destruct (loop_body s) as [s1|how1 s1].
    + apply IH; tauto.
    + intros [= <- <-]. tauto.
Qed.

End Counting.

Lemma total_moves_is_history_length_witness :
  Notions.counts_agree Scenario.one_move
  /\ (forall fuel, Forall Notions.counts_agree
                     (Controller.match_states fuel Scenario.one_move))
  /\ (forall fuel how s',
        Controller.match_loop fuel Scenario.one_move = Some (how, s') ->
        Notions.counts_agree s').
Proof.
  split; [reflexivity|].
  exact (proj2 (total_moves_is_history_length Scenario.one_move eq_refl)).
Defined.

(** ** The clocks *)

Section Clocks.
Context {E : RulesEngine}.

Import Controller Notions.

Lemma get_set_same {A : Type} (c : Color) (v : A) (d : PerColor A) :
  get c (set c v d) = v.
Proof. now destruct c. Qed.


(** What a turn does to the clocks: nothing, or one charge to the side
    that is asked; and a turn that yields a move has left that side's
    clock above zero. *)
Lemma turn_clock (p : LLM.BaseLLM) (c : Color) (s : GameController) :
  let r := _get_next_move p c s in
  match time_remaining s with
  | None => time_remaining (snd r) = None
  | Some tr =>
      match LLM.get_next_move p (request s) with
      | Ok (Some mv) =>
          time_remaining (snd r) = Some (charged c (LLM.thinking_time mv) tr)
          /\ (fst r <> None ->
              (0 < get c tr - LLM.thinking_time mv)%Q)
      | _ => time_remaining (snd r) = Some tr
      end
  end.
Proof.
  unfold_turn. unfold charged. cbn zeta.
  destruct (time_remaining s) as [tr|] eqn:Htr.
  - destruct (LLM.get_next_move p (request s)) as [[mv|]|e]; cbn; auto.
    rewrite get_set_same.
    destruct (Qle_bool (get c tr - LLM.thinking_time mv) 0) eqn:Hle.
    + split; [reflexivity|]. cbn. congruence.
    + assert (Hpos : (0 < get c tr - LLM.thinking_time mv)%Q).
      { apply Qnot_le_lt. intros Hc. apply Qle_bool_iff in Hc. congruence. }
      repeat break_match; cbn; auto.
  - repeat break_match; cbn; auto.
Qed.

Lemma mover_finished (s : GameController) :
  mover (snd (_is_game_finished s)) = mover s.
Proof.
  unfold mover. now rewrite (proj1 (proj2 (finished_frame s))).
Qed.

Lemma clocks_ge_same (s s' : GameController) :
  time_remaining s' = time_remaining s -> clocks_ge s s'.
Proof.
  unfold clocks_ge. intros ->.
  destruct (time_remaining s); [split; apply Qle_refl | exact I].
Qed.

Lemma clocks_ge_trans (s1 s2 s3 : GameController) :
  clocks_ge s1 s2 -> clocks_ge s2 s3 -> clocks_ge s1 s3.
Proof.
  unfold clocks_ge.
  destruct (time_remaining s1), (time_remaining s2), (time_remaining s3);
    try tauto.
  intros [? ?] [? ?]. split; eapply Qle_trans; eauto.
Qed.

Lemma clocks_ge_charged (s s' : GameController) (c : Color) (t : Q)
    (tr : PerColor Q) :
  time_remaining s = Some tr ->
  time_remaining s' = Some (charged c t tr) ->
  (0 <= t)%Q -> clocks_ge s s'.
Proof.
  unfold clocks_ge, charged. intros -> -> Ht.
  destruct c; cbn; split; lra.
Qed.

Lemma positive_charged (c : Color) (t : Q) (tr : PerColor Q) :
  (0 < at_white tr)%Q /\ (0 < at_black tr)%Q ->
  (0 < get c tr - t)%Q ->
  (0 < at_white (charged c t tr))%Q /\ (0 < at_black (charged c t tr))%Q.
Proof. unfold charged. destruct c; cbn; tauto. Qed.

Lemma current_player_nonneg (s : GameController) :
  nonneg_times (white_player s) -> nonneg_times (black_player s) ->
  nonneg_times (_get_current_player s).
Proof. unfold _get_current_player. now destruct (turn _). Qed.

(** A turn yields a move only when the player returned one and the
    charge left the side its turn; the move carries the thinking time
    the player reported. *)
Lemma turn_yields (p : LLM.BaseLLM) (c : Color) (s s' : GameController)
    (m : LLM.ChessMove) :
  _get_next_move p c s = (Some m, s') ->
  exists mv,
    LLM.get_next_move p (request s) = Ok (Some mv)
    /\ LLM.thinking_time m = LLM.thinking_time mv
    /\ clock_allows s c (LLM.thinking_time mv).
Proof.
  unfold_turn. unfold clock_allows.
  destruct (LLM.get_next_move p (request s)) as [[mv|]|e];
    [|destruct (time_remaining s); discriminate|discriminate].
  intros H. exists mv. split; [reflexivity|].
  destruct (time_remaining s) as [tr|].
  - rewrite get_set_same in H.
    destruct (Qle_bool (get c tr - LLM.thinking_time mv) 0) eqn:Hle;
      [discriminate|].
    assert (Hpos : (0 < get c tr - LLM.thinking_time mv)%Q).
    { apply Qnot_le_lt. intros Hc. apply Qle_bool_iff in Hc. congruence. }
    revert H. repeat break_match; intros [= <- <-]; auto.
  - revert H. repeat break_match; intros [= <- <-]; auto.
Qed.

(** No turn makes a clock go up. *)
Lemma turn_clocks_ge (p : LLM.BaseLLM) (c : Color) (s : GameController) :
  nonneg_times p -> clocks_ge s (snd (_get_next_move p c s)).
Proof.
  intros Hp. pose proof (turn_clock p c s) as Hc. cbn zeta in Hc.
  destruct (time_remaining s) as [tr|] eqn:Hs.
  - destruct (LLM.get_next_move p (request s)) as [[mv|]|e] eqn:Hr;
      try (now apply clocks_ge_same; rewrite Hc, Hs).
    destruct Hc as [Hc _]. eapply clocks_ge_charged; eauto.
  - apply clocks_ge_same. now rewrite Hc, Hs.
Qed.

(** One test of the condition and one pass: no clock goes up, and a pass
    after which the loop goes on has left the clock it charged, and so
    both clocks if both were, above zero. *)
Lemma loop_body_clock (s : GameController) :
  nonneg_times (white_player s) -> nonneg_times (black_player s) ->
  setup (after (loop_body s)) = setup s
  /\ clocks_ge s (after (loop_body s))
  /\ match loop_body s with
     | Next s' =>
         (positive_clocks s -> positive_clocks s')
         /\ forall tr', time_remaining s' = Some tr' ->
                        (0 < get (mover s) tr')%Q
     | Exit _ _ => True
     end.
Proof.
  intros Hw Hb. unfold loop_body.
  pose proof (finished_frame s) as Hf. pose proof (mover_finished s) as Hmv.
  destruct (_is_game_finished s) as [[[|]|e] s1]; cbn in Hf, Hmv;
    destruct Hf as (Hset & Hg & Htr & _ & _);
    try (cbn; split; [assumption | split; [now apply clocks_ge_same | exact I]]).
  assert (Hp : nonneg_times (_get_current_player s1)).
  { injection Hset as Hw1 Hb1 _ _ _.
    apply current_player_nonneg; [rewrite Hw1 | rewrite Hb1]; assumption. }
  pose proof (turn_clock (_get_current_player s1) (mover s1) s1) as Hc.
  pose proof (turn_setup (_get_current_player s1) (mover s1) s1) as Hs2.
  pose proof (turn_clocks_ge (_get_current_player s1) (mover s1) s1 Hp) as Hge.
  pose proof (turn_yields (_get_current_player s1) (mover s1) s1) as Hy.
  apply clocks_ge_same in Htr as Hge1.
  cbn zeta in Hc. rewrite Hmv in *.
  destruct (_get_next_move (_get_current_player s1) (mover s) s1)
    as [[m|] s2]; cbn [fst snd] in Hc, Hs2, Hge; cbn [after].
  - (* the loop goes on *)
    destruct (Hy s2 m eq_refl) as (mv & Hreply & _ & _).
    rewrite Hreply, Htr in Hc.
    split; [rewrite (proj1 (update_stats_frame _ _ _)), Hs2; exact Hset|].
    split; [exact (clocks_ge_trans _ _ _ Hge1 Hge)|].
    unfold positive_clocks.
    cbn [time_remaining _update_stats set_game_stats set_move_times].
    destruct (time_remaining s) as [tr|] eqn:Hs.
    + destruct Hc as [Hc Hpos]. specialize (Hpos ltac:(discriminate)).
      rewrite Hc. split.
      * intros Hboth. now apply positive_charged.
      * intros tr' [= <-]. unfold charged. now rewrite get_set_same.
    + rewrite Hc. split; [trivial | discriminate].
  - split; [unfold setup in *; cbn; congruence|].
    split; [exact (clocks_ge_trans _ _ _ Hge1 Hge) | exact I].
Qed.

Lemma nonneg_after (s : GameController) :
  nonneg_times (white_player s) -> nonneg_times (black_player s) ->
  nonneg_times (white_player (after (loop_body s)))
  /\ nonneg_times (black_player (after (loop_body s))).
Proof.
  intros Hw Hb. destruct (loop_body_clock s Hw Hb) as (Hset & _).
  injection Hset as -> -> _ _ _. now split.
Qed.

Lemma states_sorted (fuel : nat) (s : GameController) :
  nonneg_times (white_player s) -> nonneg_times (black_player s) ->
  StronglySorted clocks_ge (match_states fuel s)
  /\ Forall (clocks_ge s) (match_states fuel s).
Proof.
  revert s. induction fuel as [|fuel IH]; intros s Hw Hb; cbn.
  - split; constructor.
  - destruct (loop_body_clock s Hw Hb) as (_ & Hge & _).
    destruct (nonneg_after s Hw Hb) as [Hw1 Hb1].
    destruct (loop_body s) as [s1|how s1]; cbn [after] in *.
    + destruct (IH s1 Hw1 Hb1) as [Hsorted Hall]. split.
      * now constructor.
      * constructor; [assumption|].
        eapply Forall_impl; [|exact Hall].
        intros x. now apply clocks_ge_trans.
    + split; repeat constructor. assumption.
Qed.

Lemma states_positive (fuel : nat) (s : GameController) :
  nonneg_times (white_player s) -> nonneg_times (black_player s) ->
  positive_clocks s ->
  Forall positive_clocks (removelast (match_states fuel s)).
Proof.
  revert s. induction fuel as [|fuel IH]; intros s Hw Hb Hpos;
    cbn [match_states]; [constructor|].
  destruct (loop_body_clock s Hw Hb) as (_ & _ & Hnext).
  destruct (nonneg_after s Hw Hb) as [Hw1 Hb1].
  destruct (loop_body s) as [s1|how s1]; cbn [after] in *; [|constructor].
  destruct Hnext as [Hnext _]. specialize (Hnext Hpos).
  specialize (IH s1 Hw1 Hb1 Hnext).
  cbn [removelast]. destruct (match_states fuel s1); constructor; assumption.
Qed.

(** C6.  When the thinking times the two players report are never
    negative, then over the states a match goes through (the state it
    starts in, the state after each pass through the loop, the state the
    loop is left in) no clock ever goes up; a pass after which the loop
    goes on has left the clock it charged above zero, so a side whose
    clock a charge has brought to zero or below is not charged again; and
    when the clocks start above zero, every state in which a further pass
    starts has both clocks above zero. *)
Theorem clocks_never_increase (s : GameController) :
  nonneg_times (white_player s) -> nonneg_times (black_player s) ->
  (forall fuel, StronglySorted clocks_ge (s :: match_states fuel s))
  /\ (forall s' tr', loop_body s = Next s' -> time_remaining s' = Some tr' ->
                     (0 < get (mover s) tr')%Q)
  /\ (positive_clocks s ->
      forall fuel, Forall positive_clocks (removelast (match_states fuel s))).
Proof.
  intros Hw Hb. split; [|split].
  - intros fuel. destruct (states_sorted fuel s Hw Hb). now constructor.
  - intros s' tr' Hnext. destruct (loop_body_clock s Hw Hb) as (_ & _ & H).
    rewrite Hnext in H. apply H.
  - intros Hpos fuel. now apply states_positive.
Qed.

End Clocks.

Lemma scripted_nonneg (script : list string) (t : Q) :
  (0 <= t)%Q -> Notions.nonneg_times (Scenario.scripted script t).
Proof. intros Ht r m [= <-]. exact Ht. Qed.

Lemma clocks_never_increase_witness :
  Notions.nonneg_times (Controller.white_player Scenario.two_moves)
  /\ Notions.nonneg_times (Controller.black_player Scenario.two_moves)
  /\ Notions.positive_clocks Scenario.two_moves
  /\ (forall fuel,
        StronglySorted Notions.clocks_ge
          (Scenario.two_moves :: Controller.match_states fuel Scenario.two_moves))
  /\ (forall fuel,
        Forall Notions.positive_clocks
          (removelast (Controller.match_states fuel Scenario.two_moves))).
Proof.
  assert (Hw : Notions.nonneg_times (Controller.white_player Scenario.two_moves)).
  { apply scripted_nonneg. discriminate. }
  assert (Hb : Notions.nonneg_times (Controller.black_player Scenario.two_moves)).
  { apply scripted_nonneg. discriminate. }
  assert (Hp : Notions.positive_clocks Scenario.two_moves).
  { split; reflexivity. }
  pose proof (clocks_never_increase Scenario.two_moves Hw Hb) as (H1 & _ & H3).
  exact (conj Hw (conj Hb (conj Hp (conj H1 (H3 Hp))))).
Defined.

(** ** The running statistics *)













Section Statistics.
Context {E : RulesEngine}.

Import Controller Notions.



Lemma update_stats_times (mv : LLM.ChessMove) (c : Color) (s : GameController) :
  move_times (_update_stats mv c s)
  = set c (get c (move_times s) ++ [LLM.thinking_time mv])%list (move_times s).
Proof. reflexivity. Qed.







End Statistics.



(** ** Rendering *)

Section Rendering.
Context {E : RulesEngine}.

Import Controller Notions.

(** [export_game] reads the game and the statistics and nothing else. *)
Lemma export_game_reads (s s' : GameController) :
  game s' = game s -> game_stats s' = game_stats s ->
  fst (export_game s') = fst (export_game s).
Proof.
  intros Hg Hst. unfold export_game. cbn [print game game_stats].
  rewrite Hg, Hst. repeat break_match; reflexivity.
Qed.

(** [export_game] writes to the output and to nothing else. *)
Lemma export_game_frame (s : GameController) :
  game (snd (export_game s)) = game s
  /\ game_stats (snd (export_game s)) = game_stats s
  /\ time_remaining (snd (export_game s)) = time_remaining s
  /\ move_times (snd (export_game s)) = move_times s
  /\ setup (snd (export_game s)) = setup s.
Proof.
  unfold export_game. cbn [print game game_stats].
  repeat break_match; cbn; auto.
Qed.

(** C8.  What [export_game] returns (the text, or the exception) is
    determined by the game and the statistics: two states that agree on
    them are rendered alike, and rendering a second time, after the first
    rendering has written to the output, returns what the first
    returned. *)
Theorem export_game_twice (s s' : GameController) :
  game s' = game s -> game_stats s' = game_stats s ->
  fst (export_game s') = fst (export_game s)
  /\ fst (export_game (snd (export_game s))) = fst (export_game s)
  /\ fst (export_game (snd (export_game s'))) = fst (export_game s).
Proof.
  intros Hg Hst.
  destruct (export_game_frame s) as (Hg1 & Hst1 & _).
  destruct (export_game_frame s') as (Hg2 & Hst2 & _).
  repeat split; apply export_game_reads; congruence.
Qed.

End Rendering.

Lemma export_game_twice_witness :
  Controller.game (Controller.print "again" Scenario.forfeited)
  = Controller.game Scenario.forfeited
  /\ Controller.game_stats (Controller.print "again" Scenario.forfeited)
     = Controller.game_stats Scenario.forfeited
  /\ fst (Controller.export_game
            (snd (Controller.export_game Scenario.forfeited)))
     = fst (Controller.export_game Scenario.forfeited)
  /\ exists text, fst (Controller.export_game Scenario.forfeited) = Ok text.
Proof.
  split; [reflexivity|]. split; [reflexivity|]. split.
  - exact (proj1 (proj2 (export_game_twice Scenario.forfeited
                           (Controller.print "again" Scenario.forfeited)
                           eq_refl eq_refl))).
  - eexists. vm_compute. reflexivity.
Defined.

(** ** One turn *)

Section Turns.
Context {E : RulesEngine}.

Import Controller Notions.

(** The turn of a side whose clock the charge brings to zero or below:
    the clock is charged, the reason is noted, and nothing else is done. *)
Lemma turn_exhausted (p : LLM.BaseLLM) (c : Color) (s : GameController)
    (tr : PerColor Q) (mv : LLM.ChessMove) :
  time_remaining s = Some tr ->
  LLM.get_next_move p (request s) = Ok (Some mv) ->
  get c tr - LLM.thinking_time mv <= 0 ->
  _get_next_move p c s
  = (None,
     set_termination (str_color c ++ " lost on time")
       (set_time_remaining (Some (charged c (LLM.thinking_time mv) tr)) s)).
Proof.
  intros Htr Hreply Hle. unfold _get_next_move.
  rewrite Hreply, Htr, get_set_same.
  apply Qle_bool_iff in Hle. now rewrite Hle.
Qed.

(** The turn of a side that the charge leaves in play goes on to read
    the move. *)
Lemma turn_in_time (p : LLM.BaseLLM) (c : Color) (s : GameController)
    (mv : LLM.ChessMove) :
  LLM.get_next_move p (request s) = Ok (Some mv) ->
  clock_allows s c (LLM.thinking_time mv) ->
  exists s1,
    _get_next_move p c s = convert_and_move c mv s1
    /\ game s1 = game s.
Proof.
  intros Hreply Hclock. unfold _get_next_move, clock_allows in *.
  rewrite Hreply. destruct (time_remaining s) as [tr|].
  - rewrite get_set_same.
    destruct (Qle_bool (get c tr - LLM.thinking_time mv) 0) eqn:Hle.
    + apply Qle_bool_iff in Hle. lra.
    + eexists. split; reflexivity.
  - exists s. split; reflexivity.
Qed.

Lemma not_finished_same (s : GameController) :
  fst (_is_game_finished s) = Ok false -> _is_game_finished s = (Ok false, s).
Proof.
  unfold _is_game_finished, call_str.
  repeat break_match; cbn; (discriminate || reflexivity).
Qed.

Context {L : RulesEngineLaws E}.

(** Reading the move: a text that [parse_san] takes for a move is played
    and recorded; any other text leaves the game as it was. *)
Lemma convert_and_move_spec (c : Color) (mv : LLM.ChessMove)
    (s : GameController) :
  let b := Game.board (game s) in
  let r := convert_and_move c mv s in
  match parse_san b (LLM.move mv) with
  | Some m0 =>
      match from_uci (uci m0) with
      | Some m =>
          if is_legal b m then
            fst r = Some (with_move (uci m0) mv)
            /\ Game.board (game (snd r)) = push b m
            /\ Game.move_history (game (snd r))
               = (Game.move_history (game s)
                    ++ [(uci m0, LLM.move mv, annotation mv)])%list
          else fst r = None /\ game (snd r) = game s
      | None => fst r = None /\ game (snd r) = game s
      end
  | None => fst r = None /\ game (snd r) = game s
  end.
Proof.
  cbn zeta. unfold convert_and_move.
  destruct (parse_san (Game.board (game s)) (LLM.move mv)) as [m0|] eqn:Hp;
    [|split; reflexivity].
  unfold Game.make_move. cbn [with_move LLM.move LLM.explanation LLM.confidence].
  destruct (from_uci (uci m0)) as [m|]; [|split; reflexivity].
  destruct (is_legal (Game.board (game s)) m); cbn; auto.
Qed.

Lemma clock_cases (s : GameController) (c : Color) (t : Q) :
  clock_allows s c t
  \/ exists tr, time_remaining s = Some tr /\ get c tr - t <= 0.
Proof.
  unfold clock_allows. destruct (time_remaining s) as [tr|]; [|now left].
  destruct (Qlt_le_dec 0 (get c tr - t)); [now left | right; eauto].
Qed.

(** What a turn in which the player returned a move comes to: the clock
    does not allow the move and nothing is played, or the outcome is the
    one of reading the text and making the move. *)
Lemma turn_outcome (p : LLM.BaseLLM) (c : Color) (s : GameController)
    (mv : LLM.ChessMove) :
  LLM.get_next_move p (request s) = Ok (Some mv) ->
  let b := Game.board (game s) in
  let r := _get_next_move p c s in
  (~ clock_allows s c (LLM.thinking_time mv)
   /\ fst r = None /\ game (snd r) = game s)
  \/ (clock_allows s c (LLM.thinking_time mv)
      /\ match parse_san b (LLM.move mv) with
         | Some m0 =>
             match from_uci (uci m0) with
             | Some m =>
                 if is_legal b m then
                   fst r = Some (with_move (uci m0) mv)
                   /\ Game.board (game (snd r)) = push b m
                   /\ Game.move_history (game (snd r))
                      = (Game.move_history (game s)
                           ++ [(uci m0, LLM.move mv, annotation mv)])%list
                 else fst r = None /\ game (snd r) = game s
             | None => fst r = None /\ game (snd r) = game s
             end
         | None => fst r = None /\ game (snd r) = game s
         end).
Proof.
  intros Hreply b r.
  destruct (clock_cases s c (LLM.thinking_time mv)) as [Hok | (tr & Htr & Hle)].
  - right. split; [exact Hok|].
    destruct (turn_in_time p c s mv Hreply Hok) as (s1 & Hr & Hg).
    pose proof (convert_and_move_spec c mv s1) as Hspec. cbn zeta in Hspec.
    rewrite Hg in Hspec. fold b in Hspec. fold r in Hr.
    rewrite <- Hr in Hspec. exact Hspec.
  - left. pose proof (turn_exhausted p c s tr mv Htr Hreply Hle) as Hr.
    fold r in Hr. rewrite Hr. cbn. repeat split.
    unfold clock_allows. rewrite Htr. lra.
Qed.

(** C5, as amended.  In a turn in which the player returned a move:
    the move is played and recorded exactly when the engine reads it as a
    member of the legal moves of the position before the turn (the text
    is read by [parse_san], the move read is passed on in UCI and read
    again by [from_uci], and the move so read is in the legal moves) and
    the charge leaves the side in play (the match is untimed, or the
    clock stays above zero); a turn that yields no move leaves the game
    as it was; the move played is the legal move read, pushed on the
    board and appended to the history; every entry of the list of legal
    moves sent to the player is read as that legal move, and a text read
    as a legal move is played when the clock allows it; a text read as a
    move outside the legal moves is refused. *)
Theorem move_applied_iff_legal_in_time (p : LLM.BaseLLM) (c : Color)
    (s : GameController) (mv : LLM.ChessMove) :
  LLM.get_next_move p (request s) = Ok (Some mv) ->
  let b := Game.board (game s) in
  let r := _get_next_move p c s in
  (fst r <> None <->
   clock_allows s c (LLM.thinking_time mv)
   /\ exists m0 m, parse_san b (LLM.move mv) = Some m0
                   /\ from_uci (uci m0) = Some m
                   /\ In m (board_legal_moves b))
  /\ (fst r = None -> game (snd r) = game s)
  /\ (forall m0 m,
        parse_san b (LLM.move mv) = Some m0 -> from_uci (uci m0) = Some m ->
        fst r <> None ->
        In m (board_legal_moves b)
        /\ Game.board (game (snd r)) = push b m
        /\ Game.move_history (game (snd r))
           = (Game.move_history (game s)
                ++ [(uci m0, LLM.move mv, annotation mv)])%list)
  /\ (In (LLM.move mv) (LLM.legal_moves (request s)) ->
      exists m, In m (board_legal_moves b) /\ san b m = LLM.move mv
                /\ parse_san b (LLM.move mv) = Some m
                /\ from_uci (uci m) = Some m)
  /\ (forall m,
        parse_san b (LLM.move mv) = Some m -> In m (board_legal_moves b) ->
        clock_allows s c (LLM.thinking_time mv) ->
        fst r <> None /\ Game.board (game (snd r)) = push b m)
  /\ (forall m0,
        parse_san b (LLM.move mv) = Some m0 ->
        (forall m, from_uci (uci m0) = Some m ->
                   ~ In m (board_legal_moves b)) ->
        fst r = None /\ game (snd r) = game s).
Proof.
  intros Hreply b r.
  pose proof (turn_outcome p c s mv Hreply) as Hout. cbn zeta in Hout.
  fold b r in Hout.
  assert (Hlist : In (LLM.move mv) (LLM.legal_moves (request s)) ->
                  exists m, In m (board_legal_moves b) /\ san b m = LLM.move mv
                            /\ parse_san b (LLM.move mv) = Some m
                            /\ from_uci (uci m) = Some m).
  { cbn [request LLM.legal_moves]. intros Hin.
    apply in_map_iff in Hin as (m & Hsan & Hin). exists m.
    repeat split; try assumption.
    - rewrite <- Hsan. now apply parse_san_san.
    - now apply (from_uci_uci b). }
  destruct Hout as [(Hno & Hfst & Hgame) | (Hok & Hspec)].
  - (* the clock does not allow the move *)
    split; [|split; [|split; [|split; [exact Hlist | split]]]].
    + split; [intros Hn; now rewrite Hfst in Hn |].
      intros [Hok _]. contradiction.
    + auto.
    + intros m0 m _ _ Hn. now rewrite Hfst in Hn.
    + intros m _ _ Hok. contradiction.
    + auto.
  - destruct (parse_san b (LLM.move mv)) as [m0|] eqn:Hp.
    + destruct (from_uci (uci m0)) as [m|] eqn:Hu.
      * destruct (is_legal b m) eqn:Hl.
        -- (* read as a legal move: played *)
           destruct Hspec as (Hfst & Hboard & Hhist).
           pose proof (proj1 (is_legal_In b m) Hl) as Hin.
           split; [|split; [|split; [|split; [exact Hlist | split]]]].
           ++ split; [intros _; split; [exact Hok | eauto] |].
              intros _. rewrite Hfst. discriminate.
           ++ rewrite Hfst. discriminate.
           ++ intros m0' m' [= <-] Hu' _. rewrite Hu in Hu'.
              injection Hu' as <-. auto.
           ++ intros m' [= <-] Hin' _. split; [rewrite Hfst; discriminate|].
              rewrite (from_uci_uci b m0 Hin') in Hu.
              injection Hu as <-. exact Hboard.
           ++ intros m0' [= <-] Hout. destruct (Hout m Hu Hin).
        -- (* read as a move outside the legal moves: refused *)
           destruct Hspec as (Hfst & Hgame).
           assert (Hnin : ~ In m (board_legal_moves b)).
           { intros Hin. apply is_legal_In in Hin. congruence. }
           split; [|split; [|split; [|split; [exact Hlist | split]]]].
           ++ split; [intros Hn; now rewrite Hfst in Hn |].
              intros (_ & m0' & m' & [= <-] & Hu' & Hin). rewrite Hu in Hu'.
              injection Hu' as <-. contradiction.
           ++ auto.
           ++ intros m0' m' _ _ Hn. now rewrite Hfst in Hn.
           ++ intros m' [= <-] Hin' _.
              rewrite (from_uci_uci b m0 Hin') in Hu.
              injection Hu as <-. contradiction.
           ++ auto.
      * (* the UCI text is not read back *)
        destruct Hspec as (Hfst & Hgame).
        split; [|split; [|split; [|split; [exact Hlist | split]]]].
        ++ split; [intros Hn; now rewrite Hfst in Hn |].
           intros (_ & m0' & m' & [= <-] & Hu' & _). congruence.
        ++ auto.
        ++ intros m0' m' _ _ Hn. now rewrite Hfst in Hn.
        ++ intros m' [= <-] Hin' _.
           rewrite (from_uci_uci b m0 Hin') in Hu. discriminate.
        ++ auto.
    + (* the text is not read *)
      destruct Hspec as (Hfst & Hgame).
      split; [|split; [|split; [|split; [exact Hlist | split]]]].
      * split; [intros Hn; now rewrite Hfst in Hn |].
        intros (_ & m0' & m' & Hp' & _). discriminate.
      * auto.
      * intros m0' m' Hp' _ _. discriminate.
      * intros m' Hp' _ _. discriminate.
      * intros m0' Hp' _. discriminate.
Qed.


End Turns.

Lemma move_applied_iff_legal_in_time_witness :
  let s := Scenario.one_move in
  let mv := {| LLM.move := "Nh3"; LLM.explanation := "first";
               LLM.confidence := 1; LLM.thinking_time := 1 # 2 |} in
  let r := Controller._get_next_move (Controller.white_player s)
             Controller.white s in
  LLM.get_next_move (Controller.white_player s) (Controller.request s)
  = Ok (Some mv)
  /\ (fst r <> None <->
      Notions.clock_allows s Controller.white (LLM.thinking_time mv)
      /\ exists m0 m,
           parse_san (Game.board (Controller.game s)) (LLM.move mv) = Some m0
           /\ from_uci (uci m0) = Some m
           /\ In m (board_legal_moves (Game.board (Controller.game s)))).
Proof.
  cbn zeta. split; [reflexivity|].
  exact (proj1 (move_applied_iff_legal_in_time (L := opening_laws)
                  (Controller.white_player Scenario.one_move) Controller.white
                  Scenario.one_move _ eq_refl)).
Defined.

(** C5 as stated fails in a timed match: White has ten seconds and
    answers e4, a member of the legal moves sent to it, after fifteen
    seconds; the move is not played and nothing is recorded. *)
Lemma legal_move_not_applied :
  let s := Scenario.slow_white in
  let r := Controller._get_next_move (Controller.white_player s)
             Controller.white s in
  LLM.get_next_move (Controller.white_player s) (Controller.request s)
  = Ok (Some {| LLM.move := "e4"; LLM.explanation := "book";
                LLM.confidence := 9 # 10; LLM.thinking_time := 15 |})
  /\ str_in "e4" (LLM.legal_moves (Controller.request s)) = true
  /\ parse_san (Game.board (Controller.game s)) "e4" = Some "e2e4"
  /\ is_legal (Game.board (Controller.game s)) "e2e4" = true
  /\ fst r = None
  /\ Game.board (Controller.game (snd r)) = Game.board (Controller.game s)
  /\ Game.move_history (Controller.game (snd r)) = [].
Proof. vm_compute. repeat split. Qed.

(** A text that is read as a move outside the legal moves is refused
    by [make_move]: White answers "--"; [parse_san] reads the null move,
    [from_uci] reads its UCI text back, the move is not in the legal
    moves, so nothing is played and the game is lost at once. *)
Lemma null_move_is_refused :
  let s := Script.passes in
  let r := Controller._get_next_move (Controller.white_player s)
             Controller.white s in
  LLM.get_next_move (Controller.white_player s) (Controller.request s)
  = Ok (Some {| LLM.move := "--"; LLM.explanation := "book";
                LLM.confidence := 9 # 10; LLM.thinking_time := 7 |})
  /\ parse_san (Game.board (Controller.game s)) "--" = Some "0000"
  /\ from_uci (RulesEngine := Opening.engine) "0000" = Some "0000"
  /\ is_legal (Game.board (Controller.game s)) "0000" = false
  /\ fst r = None
  /\ Game.board (Controller.game (snd r)) = Game.board (Controller.game s)
  /\ Game.move_history (Controller.game (snd r)) = []
  /\ match Controller.loop_body s with
     | Controller.Exit Controller.Broke s' =>
         Controller.result (Controller.game_stats s') = Some "0-1"
     | _ => False
     end.
Proof. vm_compute. repeat split. Qed.



(** ** The adapters *)

Section Adapters.

Import LLM Notions.

Variables (provider : string) (api : Api) (prompt : string)
          (legal : list string).

(** A response that is no JSON or lacks the move makes the pass raise,
    whatever the number of passes left. *)
Lemma attempt_malformed (i : nat) :
  malformed (api i prompt) = true ->
  exists msg, attempt provider api prompt legal i = Raise (Exception msg).
Proof.
  unfold malformed, attempt.
  destruct (api i prompt) as [e|elapsed [msg|o]]; [discriminate| |].
  - intros _. cbn. eauto.
  - cbn. destruct (j_move o); [discriminate|]. intros _. cbn. eauto.
Qed.

(** A parsed response with a move outside the list makes the pass go on
    to the next one while passes are left. *)
Lemma attempt_illegal (i : nat) :
  illegal_move legal (api i prompt) = true -> (i < retries)%nat ->
  attempt provider api prompt legal i = Ok Continue.
Proof.
  unfold illegal_move, attempt, read_response. intros H Hi.
  destruct (api i prompt) as [e|elapsed [msg|o]]; try discriminate.
  destruct (j_move o) as [mv|]; [|discriminate].
  apply Nat.ltb_lt in Hi. rewrite H, Hi. reflexivity.
Qed.

(** At most [n] prompts are sent, each of them the one prompt. *)
Lemma attempts_sent (n i : nat) :
  (List.length (snd (attempts provider api prompt legal n i)) <= n)%nat
  /\ Forall (eq prompt) (snd (attempts provider api prompt legal n i)).
Proof.
  revert i. induction n as [|n IH]; intros i; cbn.
  - split; [lia | constructor].
  - destruct (attempt provider api prompt legal i) as [[|m]|e]; cbn.
    + specialize (IH (S i)).
      destruct (attempts provider api prompt legal n (S i)) as [r sent].
      cbn in *. split; [lia | constructor; tauto].
    + split; [lia | repeat constructor].
    + split; [lia | repeat constructor].
Qed.

(** After [k] responses with a move outside the list, a malformed
    response ends the call with an exception, [k + 1] prompts sent. *)
Lemma attempts_malformed (k n i : nat) :
  (k < n)%nat -> (i + k <= retries)%nat ->
  (forall j, (j < k)%nat -> illegal_move legal (api (i + j)%nat prompt) = true) ->
  malformed (api (i + k)%nat prompt) = true ->
  exists msg,
    attempts provider api prompt legal n i
    = (Raise (Exception msg), repeat prompt (S k)).
Proof.
  revert n i. induction k as [|k IH]; intros n i Hn Hi Hill Hmal.
  - destruct n as [|n]; [lia|]. cbn.
    rewrite Nat.add_0_r in Hmal.
    destruct (attempt_malformed i Hmal) as [msg ->]. eauto.
  - destruct n as [|n]; [lia|]. cbn [attempts].
    rewrite attempt_illegal.
    + destruct (IH n (S i)) as [msg Hmsg].
      * lia.
      * lia.
      * intros j Hj. replace (S i + j)%nat with (i + S j)%nat by lia.
        apply Hill. lia.
      * now replace (S i + k)%nat with (i + S k)%nat by lia.
      * rewrite Hmsg. eauto.
    + specialize (Hill 0%nat ltac:(lia)). now rewrite Nat.add_0_r in Hill.
    + lia.
Qed.

(** A pass goes on to the next one only after a parsed response with a
    move outside the list, and only while passes are left. *)
Lemma attempt_goes_on (i : nat) :
  attempt provider api prompt legal i = Ok Continue ->
  illegal_move legal (api i prompt) = true /\ (i < retries)%nat.
Proof.
  unfold attempt, illegal_move, read_response.
  destruct (api i prompt) as [e|elapsed [msg|o]];
    [discriminate | discriminate |].
  destruct (j_move o) as [mv|]; [|discriminate].
  destruct (negb (str_in mv legal)); cbn [andb];
    [destruct (i <? retries)%nat eqn:Hi;
       [intros _; split; [reflexivity | now apply Nat.ltb_lt] |] |];
    destruct (j_explanation o); try discriminate;
    destruct (j_confidence o) as [[c|e]|]; try discriminate;
    destruct e; discriminate.
Qed.

(** Every call sends a first prompt. *)
Lemma attempts_first (n i : nat) :
  (0 < n)%nat ->
  (0 < List.length (snd (attempts provider api prompt legal n i)))%nat.
Proof.
  intros Hn. destruct n as [|n]; [lia|]. cbn.
  destruct (attempt provider api prompt legal i) as [[|m]|e]; cbn; try lia.
  destruct (attempts provider api prompt legal n (S i)). cbn. lia.
Qed.

(** Which responses are followed by another prompt: with passes left,
    prompt [k + 1] is sent exactly when each of the first [k] responses
    was parsed and carried a move outside the list. *)
Lemma attempts_retried (n : nat) :
  forall i k,
    (k < n)%nat -> (i + k <= retries)%nat ->
    ((k < List.length (snd (attempts provider api prompt legal n i)))%nat
     <-> forall d, (d < k)%nat ->
                   illegal_move legal (api (i + d)%nat prompt) = true).
Proof.
  induction n as [|n IH]; intros i k Hk Hi; [lia|].
  destruct k as [|k].
  - split; [intros _ d Hd; lia | intros _; apply attempts_first; lia].
  - cbn [attempts].
    destruct (attempt provider api prompt legal i) as [[|m]|e] eqn:Ha.
    + apply attempt_goes_on in Ha as [Hill _].
      specialize (IH (S i) k ltac:(lia) ltac:(lia)).
      destruct (attempts provider api prompt legal n (S i)) as [r sent].
      cbn [snd List.length] in *. split.
      * intros Hlt [|d] Hd; [now rewrite Nat.add_0_r|].
        replace (i + S d)%nat with (S i + d)%nat by lia.
        apply IH; lia.
      * intros Hall. apply -> Nat.succ_lt_mono. apply IH. intros d Hd.
        replace (S i + d)%nat with (i + S d)%nat by lia. apply Hall. lia.
    + cbn. split; [lia|]. intros Hall.
      specialize (Hall 0%nat ltac:(lia)). rewrite Nat.add_0_r in Hall.
      rewrite attempt_illegal in Ha by (assumption || lia). discriminate.
    + cbn. split; [lia|]. intros Hall.
      specialize (Hall 0%nat ltac:(lia)). rewrite Nat.add_0_r in Hall.
      rewrite attempt_illegal in Ha by (assumption || lia). discriminate.
Qed.

End Adapters.

Section Forfeits.
Context {E : RulesEngine}.

Import Controller Notions.

(** The turn of a player whose call raises: the error is printed and
    nothing else is done. *)
Lemma turn_raised (p : LLM.BaseLLM) (c : Color) (s : GameController) (e : exn) :
  LLM.get_next_move p (request s) = Raise e ->
  _get_next_move p c s = move_error c e s.
Proof. intros H. unfold _get_next_move. now rewrite H. Qed.

(** C4, as amended.  A response that is no JSON or lacks the move is not
    tried again: after [k] parsed responses whose move is outside the
    list of legal moves (each of them followed by another call with the
    same prompt), such a response ends the call with an exception, with
    [k + 1 <= 3] prompts sent, whatever the number of attempts left; and
    in a match that is not over, the turn of a player that is such an
    adapter is then lost at once: the loop is left by its [break], with
    the game and the clocks as they were and the game scored as a loss of
    the side to move.  In every call at most three prompts are sent, each
    of them the prompt built from the request; and only a parsed response
    whose move is outside the list of legal moves is tried again: with
    attempts left, a further prompt is sent after the first [j] responses
    exactly when each of them was parsed and carried a move outside the
    list. *)
Theorem malformed_response_forfeits (s : GameController) (provider : string)
    (api : LLM.Api) (k : nat) :
  let r := request s in
  let prompt := LLM._get_chess_prompt r in
  (forall q, LLM.get_next_move (_get_current_player s) q
             = fst (LLM.llm_get_next_move provider api q)) ->
  fst (_is_game_finished s) = Ok false ->
  (k < LLM.retries)%nat ->
  (forall j, (j < k)%nat ->
             illegal_move (LLM.legal_moves r) (api (1 + j)%nat prompt) = true) ->
  malformed (api (1 + k)%nat prompt) = true ->
  (exists msg,
     LLM.llm_get_next_move provider api r
     = (Raise (Exception msg), repeat prompt (S k)))
  /\ (exists s',
        loop_body s = Exit Broke s'
        /\ game s' = game s
        /\ time_remaining s' = time_remaining s
        /\ result (game_stats s') = Some (loss (mover s)))
  /\ (forall api' q,
        (List.length (snd (LLM.llm_get_next_move provider api' q))
         <= LLM.retries)%nat
        /\ Forall (eq (LLM._get_chess_prompt q))
                  (snd (LLM.llm_get_next_move provider api' q)))
  /\ (forall api' q j,
        (1 <= j < LLM.retries)%nat ->
        ((j < List.length (snd (LLM.llm_get_next_move provider api' q)))%nat
         <-> forall i, (1 <= i <= j)%nat ->
                       illegal_move (LLM.legal_moves q)
                         (api' i (LLM._get_chess_prompt q)) = true)).
Proof.
  intros r prompt Hplayer Hfin Hk Hill Hmal.
  assert (Hcall : exists msg,
             LLM.llm_get_next_move provider api r
             = (Raise (Exception msg), repeat prompt (S k))).
  { unfold LLM.llm_get_next_move. fold prompt.
    apply attempts_malformed; assumption. }
  split; [exact Hcall | split; [|split]].
  - destruct Hcall as [msg Hcall].
    unfold loop_body. rewrite (not_finished_same s Hfin).
    rewrite (turn_raised _ _ s (Exception msg)).
    + eexists. split; [reflexivity|]. cbn. repeat split.
    + rewrite Hplayer. fold r. now rewrite Hcall.
  - intros api' q. apply attempts_sent.
  - intros api' q j Hj. unfold LLM.llm_get_next_move.
    rewrite (attempts_retried provider api' (LLM._get_chess_prompt q)
               (LLM.legal_moves q) LLM.retries 1 j) by lia.
    split; intros Hall.
    + intros i Hi. replace i with (1 + (i - 1))%nat by lia. apply Hall. lia.
    + intros d Hd. apply Hall. lia.
Qed.

End Forfeits.

Lemma malformed_response_forfeits_witness :
  let s := Scenario.malformed_white in
  let prompt := LLM._get_chess_prompt (Controller.request s) in
  fst (Controller._is_game_finished s) = Ok false
  /\ Notions.malformed (Scenario.malformed_first 1%nat prompt) = true
  /\ (exists msg,
        LLM.llm_get_next_move "Anthropic" Scenario.malformed_first
          (Controller.request s)
        = (Raise (Exception msg), [prompt]))
  /\ (exists s',
        Controller.loop_body s = Controller.Exit Controller.Broke s'
        /\ Controller.game s' = Controller.game s
        /\ Controller.time_remaining s' = Controller.time_remaining s
        /\ Controller.result (Controller.game_stats s') = Some "0-1").
Proof.
  cbn zeta. split; [reflexivity|]. split; [reflexivity|].
  pose proof (malformed_response_forfeits Scenario.malformed_white "Anthropic"
                Scenario.malformed_first 0%nat
                (fun q => eq_refl) eq_refl) as H.
  cbn zeta in H.
  destruct H as (Hcall & Hloop & _).
  - unfold LLM.retries. lia.
  - intros j Hj. lia.
  - reflexivity.
  - split; [exact Hcall | exact Hloop].
Defined.

(** C4 as stated fails: the first response of the provider is no JSON,
    the second and the third would carry a legal move.  The adapter sends
    one prompt and raises, and the turn is lost at once. *)
Lemma malformed_first_not_retried :
  LLM.llm_get_next_move "Anthropic" Scenario.malformed_first
    (Controller.request Scenario.malformed_white)
  = (Raise (Exception
       "Error calling Anthropic API: Invalid response format from Anthropic: Expecting value: line 1 column 1 (char 0)"),
     [LLM._get_chess_prompt (Controller.request Scenario.malformed_white)])
  /\ LLM.attempt "Anthropic" Scenario.malformed_first
       (LLM._get_chess_prompt (Controller.request Scenario.malformed_white))
       (LLM.legal_moves (Controller.request Scenario.malformed_white)) 2
     = Ok (LLM.Return {| LLM.move := "e4"; LLM.explanation := "centre";
                         LLM.confidence := 9 # 10; LLM.thinking_time := 2 |})
  /\ match Controller.loop_body Scenario.malformed_white with
     | Controller.Exit Controller.Broke s' =>
         Game.move_history (Controller.game s') = []
         /\ Controller.result (Controller.game_stats s') = Some "0-1"
     | _ => False
     end.
Proof. vm_compute. repeat split. Qed.

(** Two responses with a move outside the list, then a legal move: the
    third attempt is the last, and its move is returned. *)
Lemma illegal_move_is_retried :
  LLM.llm_get_next_move "OpenAI" Scenario.illegal_twice
    (Controller.request Scenario.malformed_white)
  = (Ok (Some {| LLM.move := "e4"; LLM.explanation := "centre";
                 LLM.confidence := 9 # 10; LLM.thinking_time := 3 |}),
     repeat (LLM._get_chess_prompt (Controller.request Scenario.malformed_white))
            3).
Proof. vm_compute. reflexivity. Qed.

(** ** The transcript *)

Section Transcript.
Context {E : RulesEngine}.

Import Controller Notions.

(** Without a recorded result, [export_game] raises. *)
Lemma export_game_without_result (s : GameController) :
  result (game_stats s) = None -> exists e, fst (export_game s) = Raise e.
Proof.
  intros H. unfold export_game. cbn [print game game_stats]. rewrite H.
  destruct (Game.export_pgn (game s)); cbn; eauto.
Qed.

(** The loop records a result only when it is left by its [break]. *)
Lemma loop_keeps_result (fuel : nat) (s s' : GameController) (how : loop_exit) :
  match_loop fuel s = Some (how, s') -> how <> Broke ->
  result (game_stats s') = result (game_stats s).
Proof.
  revert s. induction fuel as [|fuel IH]; intros s; cbn; [discriminate|].
  unfold loop_body.
  pose proof (finished_frame s) as Hf.
  destruct (_is_game_finished s) as [[[|]|e] s1]; cbn in Hf;
    destruct Hf as (_ & _ & _ & _ & Hfig); injection Hfig as _ _ _ Hres;
    try (intros [= <- <-] _; exact Hres).
  pose proof (turn_figures (_get_current_player s1) (mover s1) s1) as Hf2.
  destruct (_get_next_move (_get_current_player s1) (mover s1) s1)
    as [[m|] s2]; cbn in Hf2; injection Hf2 as _ _ _ Hres2.
  - intros Hrun Hhow. rewrite (IH _ Hrun Hhow). cbn. congruence.
  - intros [= <- <-] Hhow. contradiction.
Qed.

(** A match that starts without a recorded result and whose loop is left
    otherwise than by its [break] (the game is over, the move limit is
    reached, or an exception left the loop) makes [play_game] raise. *)
Lemma play_game_raises_unless_broke (fuel : nat) (now : datetime)
    (s s' : GameController) (how : loop_exit) :
  result (game_stats s) = None ->
  match_loop fuel (set_start_time (Some now) s) = Some (how, s') ->
  how <> Broke ->
  exists e s'', play_game fuel now s = Some (Raise e, s'').
Proof.
  intros Hres Hrun Hhow.
  pose proof (loop_keeps_result _ _ _ _ Hrun Hhow) as Hkeep.
  cbn [set_start_time game_stats] in Hkeep. rewrite Hres in Hkeep.
  assert (Herr : forall e x, result (game_stats x) = None ->
                   exists e' x', on_error e x = (Raise e', x')).
  { intros e x Hx. unfold on_error.
    destruct (export_game_without_result
                (set_termination ("Error: " ++ str_exn e) x) Hx) as [e' He'].
    destruct (export_game _) as [r x']. cbn in He'. subst r. eauto. }
  unfold play_game. rewrite Hrun.
  destruct how as [| |e]; [|contradiction|].
  - destruct (export_game_without_result s' Hkeep) as [e He].
    pose proof (export_game_frame s') as (_ & Hst & _).
    destruct (export_game s') as [r x]. cbn in He, Hst. subst r.
    destruct (Herr e x) as (e' & x' & ->); [congruence | eauto].
  - destruct (Herr e s' Hkeep) as (e' & x' & ->). eauto.
Qed.

End Transcript.

(** C1, the code at two matches.  An untimed match with a limit of one
    move, both players answering with the first legal move: the loop is
    left at the limit, [export_game] raises [KeyError] on the result that
    was never recorded, the handler of [play_game] calls [export_game]
    again, and [play_game] raises.  The match 1. f3 e5 2. g4 Qh4#: the
    loop condition raises [TypeError] at the checkmate, and the handler
    raises [KeyError] likewise.  No transcript is returned. *)
Theorem play_game_raises_without_transcript :
  option_map fst (Controller.play_game 5 Scenario.now Scenario.one_move)
  = Some (Raise (KeyError "result"))
  /\ option_map fst (Controller.play_game 9 Scenario.now Scenario.fools_mate)
     = Some (Raise (KeyError "result"))
  /\ option_map
       (fun r => Controller.termination (Controller.game_stats (snd r)))
       (Controller.play_game 9 Scenario.now Scenario.fools_mate)
     = Some (Some "Error: 'str' object is not callable").
Proof. vm_compute. repeat split. Qed.

(** C3, the code at an untimed match with a limit of one move, both
    players answering with the first legal move: the loop is left at the
    limit with one move played and the termination reason set, but no
    result is recorded, the game's own result is "*", and [export_game]
    raises instead of returning a transcript. *)
Theorem move_limit_records_no_draw :
  match Controller.match_loop 5
          (Controller.set_start_time (Some Scenario.now) Scenario.one_move) with
  | Some (Controller.Finished, s') =>
      Controller.total_moves (Controller.game_stats s') = 1%Z
      /\ Game.move_history (Controller.game s')
         = [("g1h3", "Nh3", "first (confidence: 1.00)")]
      /\ Controller.termination (Controller.game_stats s')
         = Some "Maximum moves reached"
      /\ Controller.result (Controller.game_stats s') = None
      /\ Game.result (Controller.game s') = "*"
      /\ fst (Controller.export_game s') = Raise (KeyError "result")
  | _ => False
  end.
Proof. vm_compute. repeat split. Qed.

(** * Further properties of the code *)

(** ** The game wrapper *)

Section GameMore.
Context {E : RulesEngine} {L : RulesEngineLaws E}.

Import Derived.

(** [make_move] returns [True] exactly when the text reads as a move of
    the legal set of the board; it then pushes that move and appends the
    one record it was given, and otherwise leaves the game as it was. *)
Theorem make_move_true_iff_legal (g : Game.ChessGame) (u sn ex : string) :
  let r := Game.make_move g u sn ex in
  (fst r = true <->
   exists m, from_uci u = Some m /\ In m (board_legal_moves (Game.board g)))
  /\ (forall m, fst r = true -> from_uci u = Some m ->
       Game.board (snd r) = push (Game.board g) m
       /\ Game.move_history (snd r)
          = (Game.move_history g ++ [(u, sn, ex)])%list
       /\ Game.player1 (snd r) = Game.player1 g
       /\ Game.player2 (snd r) = Game.player2 g
       /\ Game.start_time (snd r) = Game.start_time g)
  /\ (fst r = false -> snd r = g).
Proof.
  cbn zeta. unfold Game.make_move.
  destruct (from_uci u) as [m|] eqn:Hu.
  - destruct (is_legal (Game.board g) m) eqn:Hl; cbn.
    + apply is_legal_In in Hl. split; [|split].
      * split; [eauto | reflexivity].
      * intros m' _ [= <-]. auto.
      * discriminate.
    + split; [|split].
      * split; [discriminate|]. intros (m' & [= <-] & Hin).
        apply is_legal_In in Hin. congruence.
      * discriminate.
      * reflexivity.
  - cbn. split; [|split].
    + split; [discriminate | intros (m & Hm & _); discriminate].
    + discriminate.
    + reflexivity.
Qed.

End GameMore.

Lemma make_move_true_iff_legal_witness :
  let g := Game.init (E := Opening.engine) "w" "b" Scenario.now in
  fst (Game.make_move g "e2e4" "e4" "centre") = true
  /\ fst (Game.make_move g "e2e5" "e5" "too far") = false
  /\ fst (Game.make_move g "pawn" "e4" "no move") = false
  /\ (fst (Game.make_move g "e2e4" "e4" "centre") = true <->
      exists m, from_uci "e2e4" = Some m
                /\ In m (board_legal_moves (Game.board g))).
Proof.
  cbn zeta. repeat split; try reflexivity;
    apply (proj1 (make_move_true_iff_legal (L := opening_laws)
                    (Game.init "w" "b" Scenario.now) "e2e4" "e4" "centre")).
Defined.

Section GameResult.
Context {E : RulesEngine}.

Import Derived.

(** [result] is "*" exactly while the game is not over; a game that is
    over without checkmate is a draw; and no other value than "*", "1-0",
    "0-1" and "1/2-1/2" is ever returned. *)
Theorem result_values (g : Game.ChessGame) :
  (Game.result g = "*" <-> Game.is_game_over g = false)
  /\ (Game.is_game_over g = true -> is_checkmate (Game.board g) = false ->
      Game.result g = "1/2-1/2")
  /\ In (Game.result g) ["*"; "1-0"; "0-1"; "1/2-1/2"].
Proof.
  unfold Game.result.
  destruct (Game.is_game_over g), (is_checkmate (Game.board g)),
           (turn (Game.board g)); cbn;
    repeat split; intros; auto 6; discriminate.
Qed.

Lemma pgn_nodes_ok (h : list (string * string * string)) :
  Forall (fun r : string * string * string => from_uci (fst (fst r)) <> None) h ->
  exists nodes,
    Game.pgn_nodes h = Ok nodes
    /\ map snd nodes = map snd h
    /\ map (fun n => Some (fst n)) nodes
       = map (fun r : string * string * string => from_uci (fst (fst r))) h.
Proof.
  induction 1 as [|[[u sn] ex] h Hu _ IH]; cbn.
  - exists []. auto.
  - cbn in Hu. destruct IH as (nodes & -> & Hc & Hm).
    destruct (from_uci u) as [m|] eqn:Hm'; [|contradiction].
    exists ((m, ex) :: nodes). cbn. rewrite Hc, Hm. auto.
Qed.

Lemma make_move_recorded_ok (g : Game.ChessGame) (u sn ex : string) :
  recorded_ok g -> recorded_ok (snd (Game.make_move g u sn ex)).
Proof.
  unfold recorded_ok, Game.make_move. intros H.
  destruct (from_uci u) as [m|] eqn:Hu; [|exact H].
  destruct (is_legal (Game.board g) m); [|exact H].
  cbn. apply Forall_app. split; [exact H|].
  constructor; [cbn; congruence | constructor].
Qed.

Lemma make_moves_recorded_ok (calls : list (string * string * string))
    (g : Game.ChessGame) :
  recorded_ok g -> recorded_ok (make_moves g calls).
Proof.
  revert g. induction calls as [|[[u sn] ex] calls IH]; intros g H; cbn.
  - exact H.
  - apply IH. now apply make_move_recorded_ok.
Qed.

(** After any sequence of [make_move] calls on a new game, [export_pgn]
    does not raise: every recorded move is read back, and the game handed
    to the PGN writer has one node for each recorded move, in order, with
    the recorded explanation as its comment. *)
Theorem export_pgn_after_moves (player1 player2 : string) (now : datetime)
    (calls : list (string * string * string)) :
  let g := make_moves (Game.init player1 player2 now) calls in
  exists nodes,
    Game.export_pgn g = Ok (pgn_str (Game.headers g) nodes)
    /\ map snd nodes
       = map (fun r : string * string * string => snd r) (Game.move_history g)
    /\ map (fun n => Some (fst n)) nodes
       = map (fun r : string * string * string => from_uci (fst (fst r)))
             (Game.move_history g).
Proof.
  cbn zeta.
  assert (Hok : recorded_ok (make_moves (Game.init player1 player2 now) calls)).
  { apply make_moves_recorded_ok. constructor. }
  destruct (pgn_nodes_ok _ Hok) as (nodes & Hn & Hc & Hm).
  exists nodes. unfold Game.export_pgn. rewrite Hn. cbn. auto.
Qed.

End GameResult.

(** ** The adapters, further *)

Section AdaptersMore.

Import LLM Notions.

Variables (provider : string) (api : Api) (prompt : string)
          (legal : list string).

(** How one pass through the loop body can end. *)
Lemma attempt_cases (i : nat) :
  match attempt provider api prompt legal i with
  | Ok Continue =>
      illegal_move legal (api i prompt) = true /\ (i < retries)%nat
  | Ok (Return m) =>
      (exists o,
         api i prompt = Replies (thinking_time m) (Json o)
         /\ j_move o = Some (move m)
         /\ j_explanation o = Some (explanation m)
         /\ j_confidence o = Some (Ok (confidence m)))
      /\ (str_in (move m) legal = true \/ (retries <= i)%nat)
  | Raise e =>
      exists rest,
        e = Exception ("Error calling " ++ provider ++ " API: " ++ rest)
  end.
Proof.
  unfold attempt, illegal_move, read_response.
  destruct (api i prompt) as [e|elapsed [msg|o]];
    [cbn; eauto | cbn; eauto |].
  destruct o as [[mv|] ex c]; cbn [j_move j_explanation j_confidence];
    [|cbn; eauto].
  assert (Hread :
    match
      outer_except provider
        (inner_except provider
           match ex with
           | Some ex0 =>
               match c with
               | Some (Ok c0) =>
                   Ok (Return {| move := mv; explanation := ex0;
                                 confidence := c0; thinking_time := elapsed |})
               | Some (Raise e) => Raise e
               | None => Raise (KeyError "confidence")
               end
           | None => Raise (KeyError "explanation")
           end)
    with
    | Ok Continue => False
    | Ok (Return m) =>
        move m = mv
        /\ exists o,
          Replies elapsed (Json {| j_move := Some mv; j_explanation := ex;
                                   j_confidence := c |})
          = Replies (thinking_time m) (Json o)
          /\ j_move o = Some (move m)
          /\ j_explanation o = Some (explanation m)
          /\ j_confidence o = Some (Ok (confidence m))
    | Raise e =>
        exists rest,
          e = Exception ("Error calling " ++ provider ++ " API: " ++ rest)
    end).
  { destruct ex as [ex|]; [|cbn; eauto].
    destruct c as [[c|e]|]; [| destruct e; cbn; eauto | cbn; eauto].
    cbn. split; [reflexivity|]. eexists. cbn. eauto. }
  destruct (str_in mv legal) eqn:Hin; cbn [negb andb].
  - destruct (outer_except _ _) as [[|m]|e]; [contradiction | | assumption].
    destruct Hread as [-> Hread]. split; [assumption | now left].
  - destruct (i <? retries)%nat eqn:Hi.
    + apply Nat.ltb_lt in Hi. cbn. auto.
    + apply Nat.ltb_ge in Hi.
      destruct (outer_except _ _) as [[|m]|e]; [contradiction | | assumption].
      destruct Hread as [_ Hread]. split; [assumption | now right].
Qed.

(** How the loop can end: [k] passes that go on, then a pass that
    returns or raises, or no pass left. *)
Lemma attempts_cases (n i : nat) :
  match attempts provider api prompt legal n i with
  | (Ok None, sent) =>
      sent = repeat prompt n
      /\ forall j, (j < n)%nat -> (i + j < retries)%nat
  | (Ok (Some m), sent) =>
      exists k,
        (k < n)%nat /\ sent = repeat prompt (S k)
        /\ (forall j, (j < k)%nat ->
                      attempt provider api prompt legal (i + j) = Ok Continue)
        /\ attempt provider api prompt legal (i + k) = Ok (Return m)
  | (Raise e, sent) =>
      exists k,
        (k < n)%nat /\ sent = repeat prompt (S k)
        /\ (forall j, (j < k)%nat ->
                      attempt provider api prompt legal (i + j) = Ok Continue)
        /\ attempt provider api prompt legal (i + k) = Raise e
  end.
Proof.
  revert i. induction n as [|n IH]; intros i; cbn.
  - split; [reflexivity | lia].
  - pose proof (attempt_cases i) as Hc.
    destruct (attempt provider api prompt legal i) as [[|m]|e] eqn:Ha.
    + assert (Hshift : forall k,
                (forall j, (j < k)%nat ->
                   attempt provider api prompt legal (S i + j) = Ok Continue) ->
                forall j, (j < S k)%nat ->
                   attempt provider api prompt legal (i + j) = Ok Continue).
      { intros k Hk [|j] Hj; [now rewrite Nat.add_0_r|].
        replace (i + S j)%nat with (S i + j)%nat by lia. apply Hk. lia. }
      specialize (IH (S i)).
      destruct (attempts provider api prompt legal n (S i)) as [[[m|]|e] sent].
      * destruct IH as (k & Hk & -> & Hgo & Hat). exists (S k).
        replace (i + S k)%nat with (S i + k)%nat by lia.
        repeat split; [lia | now apply Hshift | assumption].
      * destruct IH as [-> Hj]. split; [reflexivity|].
        intros [|j] Hlt; [lia|].
        replace (i + S j)%nat with (S i + j)%nat by lia. apply Hj. lia.
      * destruct IH as (k & Hk & -> & Hgo & Hat). exists (S k).
        replace (i + S k)%nat with (S i + k)%nat by lia.
        repeat split; [lia | now apply Hshift | assumption].
    + exists 0%nat. rewrite Nat.add_0_r.
      repeat split; [lia | intros j Hj; lia | assumption].
    + exists 0%nat. rewrite Nat.add_0_r.
      repeat split; [lia | intros j Hj; lia | assumption].
Qed.

(** After [k] passes that go on, the pass that does not go on decides. *)
Lemma attempts_stop (k n i : nat) :
  (k < n)%nat ->
  (forall j, (j < k)%nat ->
             attempt provider api prompt legal (i + j) = Ok Continue) ->
  attempts provider api prompt legal n i
  = match attempt provider api prompt legal (i + k) with
    | Ok Continue =>
        (fst (attempts provider api prompt legal (n - S k) (i + S k)),
         (repeat prompt (S k)
            ++ snd (attempts provider api prompt legal (n - S k) (i + S k)))%list)
    | Ok (Return m) => (Ok (Some m), repeat prompt (S k))
    | Raise e => (Raise e, repeat prompt (S k))
    end.
Proof.
  revert n i. induction k as [|k IH]; intros n i Hn Hgo.
  - destruct n as [|n]; [lia|]. cbn [attempts]. rewrite Nat.add_0_r.
    destruct (attempt provider api prompt legal i) as [[|m]|e];
      try reflexivity.
    replace (S n - 1)%nat with n by lia. replace (i + 1)%nat with (S i) by lia.
    now destruct (attempts provider api prompt legal n (S i)).
  - destruct n as [|n]; [lia|]. cbn [attempts].
    rewrite <- (Nat.add_0_r i) at 1. rewrite (Hgo 0%nat) by lia.
    rewrite (IH n (S i)).
    + replace (S i + k)%nat with (i + S k)%nat by lia.
      replace (S i + S k)%nat with (i + S (S k))%nat by lia.
      replace (S n - S (S k))%nat with (n - S k)%nat by lia.
      destruct (attempt provider api prompt legal (i + S k)) as [[|m]|e];
        reflexivity.
    + lia.
    + intros j Hj. replace (S i + j)%nat with (i + S j)%nat by lia.
      apply Hgo. lia.
Qed.

End AdaptersMore.

Section AdapterCalls.

Import LLM Notions.

Variables (provider : string) (api : Api) (r : Request).

(** A call of an adapter ends with a move or with an exception of class
    [Exception] whose message starts with "Error calling <provider> API: ";
    it never returns [None] and lets no other exception through. *)
Theorem llm_call_returns_move_or_wrapped_error :
  match fst (llm_get_next_move provider api r) with
  | Ok (Some _) => True
  | Ok None => False
  | Raise e =>
      exists rest,
        e = Exception ("Error calling " ++ provider ++ " API: " ++ rest)
  end.
Proof.
  unfold llm_get_next_move.
  pose proof (attempts_cases provider api (_get_chess_prompt r)
                (legal_moves r) retries 1) as H.
  destruct (attempts _ _ _ _ _ _) as [[[m|]|e] sent]; cbn [fst].
  - exact I.
  - destruct H as [_ H]. specialize (H 2%nat). unfold retries in H. lia.
  - destruct H as (k & _ & _ & _ & Hat).
    pose proof (attempt_cases provider api (_get_chess_prompt r)
                  (legal_moves r) (1 + k)) as Hc.
    now rewrite Hat in Hc.
Qed.

(** The move an adapter returns comes from the response to the last
    prompt it sent: its fields are the fields of that response, its
    thinking time is the time from the start of the call to that response
    (so it includes the earlier attempts), and every earlier response
    carried a move outside the list of legal moves. *)
Theorem returned_move_is_last_response (m : ChessMove) (sent : list string) :
  llm_get_next_move provider api r = (Ok (Some m), sent) ->
  let n := List.length sent in
  let prompt := _get_chess_prompt r in
  (1 <= n <= retries)%nat
  /\ sent = repeat prompt n
  /\ (exists o,
        api n prompt = Replies (thinking_time m) (Json o)
        /\ j_move o = Some (move m)
        /\ j_explanation o = Some (explanation m)
        /\ j_confidence o = Some (Ok (confidence m)))
  /\ (forall j, (1 <= j < n)%nat ->
                illegal_move (legal_moves r) (api j prompt) = true).
Proof.
  unfold llm_get_next_move. intros Hcall.
  pose proof (attempts_cases provider api (_get_chess_prompt r)
                (legal_moves r) retries 1) as H.
  rewrite Hcall in H. destruct H as (k & Hk & -> & Hgo & Hat).
  cbn zeta. rewrite repeat_length.
  pose proof (attempt_cases provider api (_get_chess_prompt r)
                (legal_moves r) (1 + k)) as Hc.
  rewrite Hat in Hc. destruct Hc as [Hresp _].
  repeat split; try lia; try assumption.
  intros j Hj.
  pose proof (attempt_cases provider api (_get_chess_prompt r)
                (legal_moves r) (1 + (j - 1))) as Hcj.
  rewrite Hgo in Hcj by lia.
  replace (1 + (j - 1))%nat with j in Hcj by lia. tauto.
Qed.

(** A move returned before the last attempt is in the list of legal
    moves: only the third attempt can return a move outside it. *)
Theorem move_returned_early_is_legal (m : ChessMove) (sent : list string) :
  llm_get_next_move provider api r = (Ok (Some m), sent) ->
  (List.length sent < retries)%nat ->
  str_in (move m) (legal_moves r) = true.
Proof.
  unfold llm_get_next_move. intros Hcall Hlen.
  pose proof (attempts_cases provider api (_get_chess_prompt r)
                (legal_moves r) retries 1) as H.
  rewrite Hcall in H. destruct H as (k & Hk & -> & _ & Hat).
  rewrite repeat_length in Hlen.
  pose proof (attempt_cases provider api (_get_chess_prompt r)
                (legal_moves r) (1 + k)) as Hc.
  rewrite Hat in Hc. destruct Hc as [_ [Hin | Hlast]]; [assumption | lia].
Qed.

(** A failure of the client is not retried: after [k] responses with a
    move outside the list, a call of the client that raises ends the call
    of the adapter, with [k + 1] prompts sent and the client's message
    wrapped. *)
Theorem client_failure_is_not_retried (k : nat) (e : exn) :
  let prompt := _get_chess_prompt r in
  (k < retries)%nat ->
  (forall j, (j < k)%nat ->
             illegal_move (legal_moves r) (api (1 + j)%nat prompt) = true) ->
  api (1 + k)%nat prompt = CallRaises e ->
  llm_get_next_move provider api r
  = (Raise (Exception ("Error calling " ++ provider ++ " API: " ++ str_exn e)),
     repeat prompt (S k)).
Proof.
  intros prompt Hk Hill Hfail. unfold llm_get_next_move. fold prompt.
  rewrite (attempts_stop provider api prompt (legal_moves r) k retries 1 Hk).
  - unfold attempt. rewrite Hfail. reflexivity.
  - intros j Hj. apply attempt_illegal; [now apply Hill | lia].
Qed.

(** The third attempt returns the move of its response whether or not it
    is in the list of legal moves: after two responses with a move
    outside the list, a third response with all three fields is returned
    as it is. *)
Theorem last_attempt_returns_any_move (t : Q) (mv ex : string) (c : Q) :
  let prompt := _get_chess_prompt r in
  illegal_move (legal_moves r) (api 1%nat prompt) = true ->
  illegal_move (legal_moves r) (api 2%nat prompt) = true ->
  api 3%nat prompt
  = Replies t (Json {| j_move := Some mv; j_explanation := Some ex;
                       j_confidence := Some (Ok c) |}) ->
  llm_get_next_move provider api r
  = (Ok (Some {| move := mv; explanation := ex; confidence := c;
                 thinking_time := t |}),
     repeat prompt 3).
Proof.
  intros prompt H1 H2 H3. unfold llm_get_next_move. fold prompt.
  rewrite (attempts_stop provider api prompt (legal_moves r) 2 retries 1).
  - unfold attempt, read_response. cbn [Nat.add]. rewrite H3.
    cbn [j_move j_explanation j_confidence].
    replace (3 <? retries)%nat with false by reflexivity.
    rewrite andb_false_r. reflexivity.
  - unfold retries. lia.
  - intros [|[|j]] Hj; [| |lia]; apply attempt_illegal;
      (assumption || (unfold retries; lia)).
Qed.

End AdapterCalls.

Lemma returned_move_is_last_response_witness :
  LLM.llm_get_next_move "OpenAI" Script.legal_second Script.first_request
  = (Ok (Some {| LLM.move := "e4"; LLM.explanation := "centre";
                 LLM.confidence := 9 # 10; LLM.thinking_time := 4 |}),
     repeat (LLM._get_chess_prompt Script.first_request) 2)
  /\ exists o,
      Script.legal_second 2%nat (LLM._get_chess_prompt Script.first_request)
      = LLM.Replies 4 (LLM.Json o).
Proof.
  assert (Hcall :
    LLM.llm_get_next_move "OpenAI" Script.legal_second Script.first_request
    = (Ok (Some {| LLM.move := "e4"; LLM.explanation := "centre";
                   LLM.confidence := 9 # 10; LLM.thinking_time := 4 |}),
       repeat (LLM._get_chess_prompt Script.first_request) 2))
    by (vm_compute; reflexivity).
  split; [exact Hcall|].
  destruct (returned_move_is_last_response _ _ _ _ _ Hcall)
    as (_ & _ & (o & Ho & _) & _).
  rewrite repeat_length in Ho. exists o. exact Ho.
Defined.

Lemma move_returned_early_is_legal_witness :
  LLM.llm_get_next_move "OpenAI" Script.legal_second Script.first_request
  = (Ok (Some {| LLM.move := "e4"; LLM.explanation := "centre";
                 LLM.confidence := 9 # 10; LLM.thinking_time := 4 |}),
     repeat (LLM._get_chess_prompt Script.first_request) 2)
  /\ str_in "e4" (LLM.legal_moves Script.first_request) = true.
Proof.
  assert (Hcall :
    LLM.llm_get_next_move "OpenAI" Script.legal_second Script.first_request
    = (Ok (Some {| LLM.move := "e4"; LLM.explanation := "centre";
                   LLM.confidence := 9 # 10; LLM.thinking_time := 4 |}),
       repeat (LLM._get_chess_prompt Script.first_request) 2))
    by (vm_compute; reflexivity).
  split; [exact Hcall|].
  apply (move_returned_early_is_legal _ _ _ _ _ Hcall).
  rewrite repeat_length. unfold LLM.retries. lia.
Defined.

Lemma client_failure_is_not_retried_witness :
  LLM.llm_get_next_move "Anthropic" Script.call_fails_second Script.first_request
  = (Raise (Exception "Error calling Anthropic API: Connection error."),
     repeat (LLM._get_chess_prompt Script.first_request) 2).
Proof.
  apply (client_failure_is_not_retried "Anthropic" Script.call_fails_second
           Script.first_request 1 (Exception "Connection error.")).
  - unfold LLM.retries. lia.
  - intros [|j] Hj; [reflexivity | lia].
  - reflexivity.
Defined.

Lemma last_attempt_returns_any_move_witness :
  LLM.llm_get_next_move "OpenAI" Script.always_illegal Script.first_request
  = (Ok (Some {| LLM.move := "e5"; LLM.explanation := "centre";
                 LLM.confidence := 9 # 10; LLM.thinking_time := 3 |}),
     repeat (LLM._get_chess_prompt Script.first_request) 3)
  /\ str_in "e5" (LLM.legal_moves Script.first_request) = false.
Proof.
  split; [|reflexivity].
  exact (last_attempt_returns_any_move "OpenAI" Script.always_illegal
           Script.first_request 3 "e5" "centre" (9 # 10)
           eq_refl eq_refl eq_refl).
Defined.

(** ** The controller, further *)

Section ControllerMore.
Context {E : RulesEngine}.

Import Controller Notions Derived Ledger.

(** A time control of zero is no time control: [__init__] sets up clocks
    exactly when a time control other than zero is given, both at that
    value; the match starts from the initial position with nothing
    recorded, no termination reason and no result. *)
Theorem init_time_control (w b : LLM.BaseLLM) (tc mm : option Z)
    (now : datetime) :
  let s := init w b tc mm now in
  (time_remaining s = None <-> tc = None \/ tc = Some 0%Z)
  /\ (forall z, tc = Some z -> z <> 0%Z ->
       time_remaining s
       = Some {| at_white := inject_Z z; at_black := inject_Z z |})
  /\ Game.board (game s) = start_board
  /\ Game.move_history (game s) = []
  /\ move_times s = {| at_white := []; at_black := [] |}
  /\ total_moves (game_stats s) = 0%Z
  /\ termination (game_stats s) = None
  /\ result (game_stats s) = None.
Proof.
  cbn. repeat split; try reflexivity.
  - destruct tc as [[|p|p]|]; cbn; intros H;
      (discriminate H || auto).
  - intros [-> | ->]; reflexivity.
  - intros z -> Hz. destruct z; [contradiction | reflexivity | reflexivity].
Qed.

(** [_is_game_finished] on a game that is over notes "Normal chess
    ending" and then raises [TypeError], recording no result; on a game
    that is not over it returns [True] exactly when a move limit other
    than zero is set and reached, noting "Maximum moves reached" and
    recording no result, and otherwise returns [False] and changes
    nothing.  A limit of zero is no limit. *)
Theorem game_finished_cases (s : GameController) :
  let r := _is_game_finished s in
  (Game.is_game_over (game s) = true ->
   fst r = Raise (TypeError "'str' object is not callable")
   /\ termination (game_stats (snd r)) = Some "Normal chess ending"
   /\ result (game_stats (snd r)) = result (game_stats s))
  /\ (Game.is_game_over (game s) = false ->
      (fst r = Ok true <->
       exists m, max_moves s = Some m /\ m <> 0%Z
                 /\ (m <= total_moves (game_stats s))%Z)
      /\ (fst r = Ok true ->
          termination (game_stats (snd r)) = Some "Maximum moves reached"
          /\ result (game_stats (snd r)) = result (game_stats s))
      /\ (fst r <> Ok true -> r = (Ok false, s))).
Proof.
  cbn zeta. unfold _is_game_finished, call_str.
  destruct (Game.is_game_over (game s)); (split; [|discriminate || intros _]);
    try discriminate.
  - intros _. cbn. auto.
  - destruct (max_moves s) as [m|] eqn:Hm; cbn [truthy].
    + destruct (Z.eqb_spec m 0) as [->|Hne]; cbn [negb andb].
      * repeat split; try discriminate; try reflexivity.
        intros (m & [= <-] & Hm0 & _). contradiction.
      * destruct (Z.geb_spec (total_moves (game_stats s)) m) as [Hge|Hlt];
          cbn [fst snd].
        -- repeat split; try reflexivity; try contradiction.
           ++ intros _. exists m. repeat split; [assumption | lia].
        -- repeat split; try discriminate; try reflexivity.
           intros (m' & [= <-] & _ & Hle). lia.
    + cbn. repeat split; try discriminate; try reflexivity.
      intros (m & Hm' & _). discriminate.
Qed.

End ControllerMore.

Section LoopMore.
Context {E : RulesEngine}.

Import Controller Notions Derived Ledger.

(** What one test of the condition and one pass do to the bookkeeping. *)
Lemma loop_body_effect (s : GameController) :
  match loop_body s with
  | Next s' =>
      fst (_is_game_finished s) = Ok false
      /\ setup s' = setup s
      /\ total_moves (game_stats s') = (total_moves (game_stats s) + 1)%Z
      /\ result (game_stats s') = result (game_stats s)
      /\ exists t,
          move_times s'
          = set (mover s) (get (mover s) (move_times s) ++ [t])%list
                (move_times s)
          /\ time_remaining s' = charge_mover s t
  | Exit how s' =>
      setup s' = setup s
      /\ game s' = game s
      /\ total_moves (game_stats s') = total_moves (game_stats s)
      /\ move_times s' = move_times s
      /\ (how <> Broke ->
          time_remaining s' = time_remaining s
          /\ result (game_stats s') = result (game_stats s))
  end.
Proof.
  unfold loop_body.
  pose proof (finished_frame s) as Hf. pose proof (mover_finished s) as Hmv.
  destruct (_is_game_finished s) as [[[|]|e] s1] eqn:Hfin; cbn in Hf, Hmv;
    destruct Hf as (Hset & Hg & Htr & Hm & Hfig);
    injection Hfig as Htot _ _ Hres; try (repeat split; assumption).
  pose proof (turn_setup (_get_current_player s1) (mover s1) s1) as Hs2.
  pose proof (turn_move_times (_get_current_player s1) (mover s1) s1) as Hm2.
  pose proof (turn_figures (_get_current_player s1) (mover s1) s1) as Hf2.
  pose proof (turn_history (_get_current_player s1) (mover s1) s1) as Hh.
  pose proof (turn_clock (_get_current_player s1) (mover s1) s1) as Hc.
  pose proof (turn_yields (_get_current_player s1) (mover s1) s1) as Hy.
  cbn zeta in Hc.
  destruct (_get_next_move (_get_current_player s1) (mover s1) s1)
    as [[m|] s2]; cbn [fst snd] in *; injection Hf2 as Htot2 _ _ Hres2.
  - destruct (Hy s2 m eq_refl) as (mv & Hreply & Ht & _).
    rewrite Hreply in Hc.
    split; [reflexivity|].
    split; [rewrite (proj1 (update_stats_frame _ _ _)); congruence|].
    split; [cbn; congruence|]. split; [cbn; congruence|].
    exists (LLM.thinking_time m). split.
    + rewrite update_stats_times, Hm2, Hm, Hmv. reflexivity.
    + unfold charge_mover. rewrite <- Htr, <- Hmv. cbn.
      destruct (time_remaining s1); [rewrite Ht; tauto | assumption].
  - split; [unfold setup in *; cbn; congruence|].
    split; [cbn; congruence|]. split; [cbn; congruence|].
    split; [cbn; congruence|]. intros Hn. contradiction.
Qed.

Lemma loop_body_limit (s : GameController) (m : Z) :
  max_moves s = Some m -> (0 < m)%Z ->
  (m <= total_moves (game_stats s))%Z ->
  exists how s', loop_body s = Exit how s'.
Proof.
  intros Hm Hpos Hle. unfold loop_body, _is_game_finished, call_str.
  destruct (Game.is_game_over (game s)); [eauto|].
  rewrite Hm. cbn [truthy].
  destruct (Z.eqb_spec m 0); [lia|].
  destruct (Z.geb_spec (total_moves (game_stats s)) m); [|lia].
  cbn. eauto.
Qed.

Lemma loop_within_budget (m : Z) (d : nat) (s : GameController) :
  max_moves s = Some m -> (0 < m)%Z ->
  (Z.to_nat (m - total_moves (game_stats s)) <= d)%nat ->
  match_loop (S d) s <> None.
Proof.
  revert s. induction d as [|d IH]; intros s Hm Hpos Hd; cbn [match_loop].
  - destruct (loop_body_limit s m Hm Hpos ltac:(lia)) as (how & s' & ->).
    discriminate.
  - pose proof (loop_body_effect s) as He.
    destruct (loop_body s) as [s'|how s']; [|discriminate].
    destruct He as (_ & Hset & Htot & _).
    apply IH; try assumption.
    + injection Hset as _ _ _ -> _. assumption.
    + rewrite Htot. lia.
Qed.

(** With a move limit above zero the loop of [play_game] is left after
    at most as many passes as moves are missing to the limit, so
    [play_game] ends (with a transcript or an exception) within that many
    tests of the loop condition plus one. *)
Theorem move_limit_bounds_the_match (s : GameController) (m : Z)
    (now : datetime) :
  max_moves s = Some m -> (0 < m)%Z ->
  let fuel := S (Z.to_nat (m - total_moves (game_stats s))) in
  match_loop fuel s <> None /\ play_game fuel now s <> None.
Proof.
  intros Hm Hpos fuel. split.
  - now apply (loop_within_budget m).
  - unfold play_game.
    pose proof (loop_within_budget m _ (set_start_time (Some now) s) Hm Hpos
                  (Nat.le_refl _)) as Hrun.
    cbn [set_start_time game_stats] in Hrun. fold fuel in Hrun.
    destruct (match_loop fuel (set_start_time (Some now) s))
      as [[[| |e] s']|]; try contradiction;
      try destruct (export_game s') as [[text|e'] s'']; discriminate.
Qed.

(** With a move limit above zero, a counter that starts at or below the
    limit stays at or below it in every state the loop goes through. *)
Theorem total_moves_within_limit (s : GameController) (m : Z) :
  max_moves s = Some m -> (0 < m)%Z ->
  (total_moves (game_stats s) <= m)%Z ->
  forall fuel,
    Forall (fun x => (total_moves (game_stats x) <= m)%Z)
           (match_states fuel s).
Proof.
  intros Hm Hpos Hle fuel. revert s Hm Hle.
  induction fuel as [|fuel IH]; intros s Hm Hle; cbn; [constructor|].
  pose proof (loop_body_effect s) as He.
  destruct (loop_body s) as [s'|how s'] eqn:Hb.
  - destruct He as (_ & Hset & Htot & _).
    assert (Hlt : (total_moves (game_stats s) < m)%Z).
    { destruct (Z.lt_ge_cases (total_moves (game_stats s)) m) as [H|H];
        [assumption|].
      destruct (loop_body_limit s m Hm Hpos H) as (how & x & Hx). congruence. }
    assert (Hm' : max_moves s' = Some m).
    { injection Hset as _ _ _ -> _. assumption. }
    constructor; [lia | apply IH; [assumption | lia]].
  - destruct He as (_ & _ & Htot & _). constructor; [lia | constructor].
Qed.

(** Every counted move has one recorded sample: the samples of the two
    sides are together as many as [total_moves], in every state the loop
    goes through. *)
Theorem samples_match_total_moves (s : GameController) :
  samples_counted s ->
  forall fuel, Forall samples_counted (match_states fuel s).
Proof.
  intros Hs fuel. revert s Hs.
  assert (Hstep : forall s, samples_counted s ->
                            samples_counted (after (loop_body s))).
  { intros s Hs. unfold samples_counted in *.
    pose proof (loop_body_effect s) as He.
    destruct (loop_body s) as [s'|how s']; cbn [after].
    - destruct He as (_ & _ & Htot & _ & t & Hm & _). rewrite Htot, Hm, <- Hs.
      destruct (mover s); cbn; rewrite length_app; cbn; lia.
    - destruct He as (_ & _ & Htot & Hm & _). now rewrite Htot, Hm. }
  induction fuel as [|fuel IH]; intros s Hs; cbn; [constructor|].
  specialize (Hstep s Hs).
  destruct (loop_body s) as [s'|how s']; cbn [after] in Hstep.
  - constructor; [assumption | now apply IH].
  - constructor; [assumption | constructor].
Qed.

End LoopMore.

Lemma move_limit_bounds_the_match_witness :
  Controller.max_moves Scenario.two_moves = Some 2%Z
  /\ Controller.match_loop 3 Scenario.two_moves <> None
  /\ Controller.play_game 3 Scenario.now Scenario.two_moves <> None.
Proof.
  split; [reflexivity|].
  exact (move_limit_bounds_the_match Scenario.two_moves 2 Scenario.now
           eq_refl eq_refl).
Defined.

Lemma total_moves_within_limit_witness :
  Controller.max_moves Scenario.two_moves = Some 2%Z
  /\ (Controller.total_moves (Controller.game_stats Scenario.two_moves) <= 2)%Z
  /\ Forall (fun x => (Controller.total_moves (Controller.game_stats x) <= 2)%Z)
            (Controller.match_states 3 Scenario.two_moves).
Proof.
  split; [reflexivity|]. split; [discriminate|].
  apply (total_moves_within_limit Scenario.two_moves 2 eq_refl eq_refl).
  discriminate.
Defined.

Lemma samples_match_total_moves_witness :
  Ledger.samples_counted Scenario.two_moves
  /\ Forall Ledger.samples_counted
            (Controller.match_states 3 Scenario.two_moves).
Proof.
  split; [reflexivity|].
  exact (samples_match_total_moves Scenario.two_moves eq_refl 3%nat).
Defined.

(** ** Failed turns and the transcript *)

Lemma string_append_assoc (a b c : string) : (a ++ b) ++ c = a ++ (b ++ c).
Proof. induction a as [|x a IH]; cbn; [reflexivity | now rewrite IH]. Qed.

Section FailedTurns.
Context {E : RulesEngine}.

Import Controller Notions Derived Ledger.

Lemma turn_unreadable (p : LLM.BaseLLM) (c : Color) (s : GameController)
    (mv : LLM.ChessMove) :
  LLM.get_next_move p (request s) = Ok (Some mv) ->
  clock_allows s c (LLM.thinking_time mv) ->
  parse_san (Game.board (game s)) (LLM.move mv) = None ->
  _get_next_move p c s
  = (None,
     print ("Invalid move format from " ++ str_color c ++ " player: "
              ++ LLM.move mv)
       match time_remaining s with
       | Some tr =>
           set_time_remaining
             (Some (charged c (LLM.thinking_time mv) tr)) s
       | None => s
       end).
Proof.
  intros Hreply Hclock Hparse. unfold _get_next_move, clock_allows in *.
  rewrite Hreply. destruct (time_remaining s) as [tr|].
  - rewrite get_set_same.
    destruct (Qle_bool (get c tr - LLM.thinking_time mv) 0) eqn:Hle.
    + apply Qle_bool_iff in Hle. lra.
    + unfold convert_and_move. cbn [game set_time_remaining].
      now rewrite Hparse.
  - unfold convert_and_move. now rewrite Hparse.
Qed.

(** A move that the engine cannot read loses the game at once: in a
    match that is not over, when the player returns a text that
    [parse_san] rejects (and the charge leaves the side in play), the
    loop is left by its [break] with the position, the history and the
    statistics as they were, the game scored as a loss of the side to
    move, and the termination reason "Invalid move by <color>".  In a
    timed match the clock of that side has been charged all the same. *)
Theorem unreadable_move_forfeits (s : GameController) (mv : LLM.ChessMove) :
  fst (_is_game_finished s) = Ok false ->
  LLM.get_next_move (_get_current_player s) (request s) = Ok (Some mv) ->
  clock_allows s (mover s) (LLM.thinking_time mv) ->
  parse_san (Game.board (game s)) (LLM.move mv) = None ->
  exists s',
    loop_body s = Exit Broke s'
    /\ game s' = game s
    /\ move_times s' = move_times s
    /\ total_moves (game_stats s') = total_moves (game_stats s)
    /\ time_remaining s' = charge_mover s (LLM.thinking_time mv)
    /\ result (game_stats s') = Some (loss (mover s))
    /\ termination (game_stats s')
       = Some ("Invalid move by " ++ str_color (mover s))
    /\ average_time_per_move (game_stats s')
       = average_time_per_move (game_stats s)
    /\ longest_think_time (game_stats s')
       = longest_think_time (game_stats s).
Proof.
  intros Hfin Hreply Hclock Hparse. unfold loop_body.
  rewrite (not_finished_same s Hfin).
  rewrite (turn_unreadable _ _ s mv Hreply Hclock Hparse).
  eexists. split; [reflexivity|]. unfold charge_mover.
  destruct (time_remaining s) eqn:Htr; cbn; rewrite ?Htr; repeat split.
Qed.

Lemma turn_recorded_ok (p : LLM.BaseLLM) (c : Color) (s : GameController) :
  recorded_ok (game s) -> recorded_ok (game (snd (_get_next_move p c s))).
Proof.
  intros H. unfold_turn.
  repeat break_match; cbn; try assumption;
    match goal with
    | Hm : Game.make_move ?g ?u ?sn ?ex = (?b, ?g') |- _ =>
        pose proof (make_move_recorded_ok g u sn ex) as Hr;
        rewrite Hm in Hr; cbn in Hr; apply Hr; assumption
    end.
Qed.

Lemma loop_body_recorded_ok (s : GameController) :
  recorded_ok (game s) -> recorded_ok (game (after (loop_body s))).
Proof.
  intros H. unfold loop_body.
  pose proof (finished_frame s) as Hf.
  destruct (_is_game_finished s) as [[[|]|e] s1]; cbn in Hf;
    destruct Hf as (_ & Hg & _); rewrite <- Hg in H; try exact H.
  pose proof (turn_recorded_ok (_get_current_player s1) (mover s1) s1 H) as H2.
  destruct (_get_next_move (_get_current_player s1) (mover s1) s1)
    as [[m|] s2]; exact H2.
Qed.

(** The state a loop left by its [break] is in. *)
Lemma loop_broke (fuel : nat) (s s' : GameController) :
  recorded_ok (game s) ->
  match_loop fuel s = Some (Broke, s') ->
  recorded_ok (game s')
  /\ result (game_stats s') = Some (loss (mover s'))
  /\ termination (game_stats s')
     = Some ("Invalid move by " ++ str_color (mover s')).
Proof.
  revert s. induction fuel as [|fuel IH]; intros s Hok; cbn; [discriminate|].
  pose proof (loop_body_recorded_ok s Hok) as Hok'.
  unfold loop_body in *.
  pose proof (mover_finished s) as Hmv.
  destruct (_is_game_finished s) as [[[|]|e] s1]; cbn in Hmv;
    try discriminate.
  pose proof (turn_history (_get_current_player s1) (mover s1) s1) as Hh.
  destruct (_get_next_move (_get_current_player s1) (mover s1) s1)
    as [[m|] s2]; cbn [after] in Hok'.
  - now apply IH.
  - intros [= <-]. split; [exact Hok'|].
    unfold mover in *. cbn. rewrite Hh. now destruct (turn _).
Qed.

(** [play_game] returns a transcript exactly when its loop is left by the
    [break] of a failed turn.  From a state without a recorded result
    whose recorded moves all read back: when the loop is left by the
    [break], [play_game] returns the PGN followed by the statistics, the
    reason "Invalid move by <color>" and the result that scores the game
    as a loss of the side to move; when the loop is left in any other way
    (the game is over, the move limit is reached, an exception), it
    raises. *)
Theorem play_game_transcript_iff_failed_turn (fuel : nat) (now : datetime)
    (s : GameController) :
  result (game_stats s) = None ->
  recorded_ok (game s) ->
  match match_loop fuel (set_start_time (Some now) s) with
  | Some (Broke, s') =>
      exists nodes s'',
        play_game fuel now s
        = Some (Ok (pgn_str (Game.headers (game s')) nodes ++ nl ++ nl
                      ++ stats_header (game_stats s')
                      ++ "Termination: Invalid move by "
                      ++ str_color (mover s') ++ nl
                      ++ "Result: " ++ loss (mover s') ++ nl),
                s'')
  | Some (_, _) => exists e s'', play_game fuel now s = Some (Raise e, s'')
  | None => play_game fuel now s = None
  end.
Proof.
  intros Hres Hok.
  destruct (match_loop fuel (set_start_time (Some now) s))
    as [[how s']|] eqn:Hrun.
  - assert (Hbroke :
      how = Broke ->
      exists nodes s'',
        play_game fuel now s
        = Some (Ok (pgn_str (Game.headers (game s')) nodes ++ nl ++ nl
                      ++ stats_header (game_stats s')
                      ++ "Termination: Invalid move by "
                      ++ str_color (mover s') ++ nl
                      ++ "Result: " ++ loss (mover s') ++ nl),
                s'')).
    { intros ->.
      destruct (loop_broke fuel (set_start_time (Some now) s) s' Hok Hrun)
        as (Hok' & Hr & Ht).
      destruct (pgn_nodes_ok _ Hok') as (nodes & Hn & _).
      exists nodes. unfold play_game. rewrite Hrun.
      unfold export_game, Game.export_pgn. cbn [print game game_stats].
      rewrite Hn, Hr, Ht. cbn [bind].
      assert (Hstar : negb (loss (mover s') =? "*") = true)
        by now destruct (mover s').
      rewrite Hstar, string_append_assoc.
      destruct (mover s'); eexists; reflexivity. }
    destruct how as [| |e]; [| now apply Hbroke |];
      apply (play_game_raises_unless_broke fuel now s s' _ Hres Hrun);
      discriminate.
  - unfold play_game. now rewrite Hrun.
Qed.

End FailedTurns.

Lemma unreadable_move_forfeits_witness :
  let s := Script.wrong_move in
  let mv := {| LLM.move := "e5"; LLM.explanation := "book";
               LLM.confidence := 9 # 10; LLM.thinking_time := 7 |} in
  fst (Controller._is_game_finished s) = Ok false
  /\ parse_san (Game.board (Controller.game s)) (LLM.move mv) = None
  /\ exists s',
      Controller.loop_body s = Controller.Exit Controller.Broke s'
      /\ Controller.game s' = Controller.game s
      /\ Controller.time_remaining s'
         = Some {| Controller.at_white := 60 - 7; Controller.at_black := 60 |}
      /\ Controller.result (Controller.game_stats s') = Some "0-1".
Proof.
  cbn zeta. split; [reflexivity|]. split; [reflexivity|].
  destruct (unreadable_move_forfeits Script.wrong_move
              {| LLM.move := "e5"; LLM.explanation := "book";
                 LLM.confidence := 9 # 10; LLM.thinking_time := 7 |}
              eq_refl eq_refl)
    as (s' & Hb & Hg & _ & _ & Ht & Hr & _).
  - reflexivity.
  - reflexivity.
  - exists s'. auto.
Defined.

Lemma play_game_transcript_iff_failed_turn_witness :
  Controller.result (Controller.game_stats Scenario.slow_white) = None
  /\ Derived.recorded_ok (Controller.game Scenario.slow_white)
  /\ exists text,
      option_map fst (Controller.play_game 3 Scenario.now Scenario.slow_white)
      = Some (Ok text).
Proof.
  split; [reflexivity|]. split; [constructor|].
  pose proof (play_game_transcript_iff_failed_turn 3 Scenario.now
                Scenario.slow_white eq_refl (Forall_nil _)) as H.
  destruct (Controller.match_loop 3
              (Controller.set_start_time (Some Scenario.now)
                 Scenario.slow_white)) as [[[| |e] s']|].
  - destruct H as (e & s'' & H).
    eexists. vm_compute. reflexivity.
  - destruct H as (nodes & s'' & ->). eexists. reflexivity.
  - eexists. vm_compute. reflexivity.
  - eexists. vm_compute. reflexivity.
Defined.

(** ** The move table of the page *)

Section MoveTable.

Import ChessUtils.

Lemma pair_ind (A : Type) (P : list A -> Prop) :
  P [] -> (forall w, P [w]) -> (forall w b l, P l -> P (w :: b :: l)) ->
  forall l, P l.
Proof.
  intros H0 H1 H2 l.
  assert (H : P l /\ forall a, P (a :: l)).
  { induction l as [|x l [IH IH']].
    - split; [exact H0 | exact H1].
    - split; [apply IH' | intros a; apply H2, IH]. }
  apply H.
Qed.

Lemma rows_from_past (moves : list (string * string * string))
    (fuel i : nat) :
  (List.length moves <= i)%nat -> rows_from moves fuel i = [].
Proof.
  intros H. destruct fuel as [|fuel]; [reflexivity|]. cbn [rows_from].
  destruct (Nat.ltb_spec i (List.length moves)); [lia | reflexivity].
Qed.

Lemma cell_app (pre l : list (string * string * string)) (j : nat) :
  cell (pre ++ l) (List.length pre + j)
  = match nth_error l j with Some m => shown m | None => "" end.
Proof.
  unfold cell. rewrite nth_error_app2 by lia.
  replace (List.length pre + j - List.length pre)%nat with j by lia.
  reflexivity.
Qed.

Lemma rows_from_paired (fuel : nat) :
  forall l pre : list (string * string * string),
    Nat.even (List.length pre) = true -> (List.length l <= fuel)%nat ->
    rows_from (pre ++ l) fuel (List.length pre)
    = paired (Z.of_nat (List.length pre) / 2 + 1) l.
Proof.
  induction fuel as [|fuel IH]; intros l pre Hev Hl.
  - destruct l; [reflexivity | cbn in Hl; lia].
  - cbn [rows_from]. rewrite length_app.
    destruct l as [|w [|b rest]].
    + cbn [List.length paired].
      destruct (Nat.ltb_spec (List.length pre) (List.length pre + 0));
        [lia | reflexivity].
    + destruct (Nat.ltb_spec (List.length pre)
                  (List.length pre + List.length [w])); [|cbn in *; lia].
      cbn zeta. cbn [paired].
      rewrite rows_from_past by (rewrite length_app; cbn; lia).
      rewrite <- (Nat.add_0_r (List.length pre)) at 2.
      rewrite !cell_app. reflexivity.
    + destruct (Nat.ltb_spec (List.length pre)
                  (List.length pre + List.length (w :: b :: rest)));
        [|cbn in *; lia].
      cbn zeta. cbn [paired].
      rewrite <- (Nat.add_0_r (List.length pre)) at 2.
      rewrite !cell_app. cbn [nth_error]. f_equal.
      replace (pre ++ w :: b :: rest)%list
        with ((pre ++ [w; b]) ++ rest)%list
        by (rewrite <- app_assoc; reflexivity).
      replace (List.length pre + 2)%nat with (List.length (pre ++ [w; b]))
        by (rewrite length_app; reflexivity).
      rewrite IH.
      * f_equal. rewrite length_app. cbn [List.length].
        rewrite Nat2Z.inj_add.
        change (Z.of_nat 2) with (1 * 2)%Z. rewrite Z.div_add by lia. lia.
      * rewrite length_app. cbn [List.length].
        rewrite Nat.even_add, Hev. reflexivity.
      * cbn in Hl. lia.
Qed.

Lemma rows_paired (moves : list (string * string * string)) :
  rows moves = paired 1 moves.
Proof.
  unfold rows.
  exact (rows_from_paired (List.length moves) moves [] eq_refl (le_n _)).
Qed.

Lemma paired_length (moves : list (string * string * string)) :
  forall k, List.length (paired k moves)
            = ((List.length moves + 1) / 2)%nat.
Proof.
  induction moves as [|w|w b l IH] using pair_ind; intros k.
  - reflexivity.
  - reflexivity.
  - cbn [paired List.length]. rewrite IH.
    replace (S (S (List.length l)) + 1)%nat
      with (List.length l + 1 + 1 * 2)%nat by lia.
    rewrite Nat.div_add by lia. lia.
Qed.

Lemma paired_app (l : list (string * string * string)) :
  forall k l', Nat.even (List.length l) = true ->
    paired k (l ++ l')
    = (paired k l ++ paired (k + Z.of_nat (List.length l) / 2) l')%list.
Proof.
  induction l as [|w|w b l IH] using pair_ind; intros k l' Hev.
  - cbn. rewrite Z.add_0_r. reflexivity.
  - discriminate.
  - cbn [app paired]. rewrite IH by exact Hev. cbn [app]. do 3 f_equal.
    cbn [List.length]. rewrite !Nat2Z.inj_succ.
    replace (Z.succ (Z.succ (Z.of_nat (List.length l))))
      with (Z.of_nat (List.length l) + 1 * 2)%Z by lia.
    rewrite Z.div_add by lia. lia.
Qed.

Lemma string_append_nil_r (s : string) : s ++ "" = s.
Proof. induction s as [|a s IH]; cbn; [|rewrite IH]; reflexivity. Qed.

Lemma concat_cons (x : string) (xs : list string) :
  String.concat "" (x :: xs) = x ++ String.concat "" xs.
Proof.
  destruct xs; cbn [String.concat].
  - now rewrite string_append_nil_r.
  - reflexivity.
Qed.

(** The rows of the move table are the moves taken two at a time: row
    [k], counted from one, shows the notation and the explanation of
    move [2k - 1] as White's and of move [2k] as Black's, the last cell
    being empty when the number of moves is odd; there are as many rows
    as half the number of moves, rounded up. *)
Theorem move_history_rows (moves : list (string * string * string)) :
  rows moves = paired 1 moves
  /\ List.length (rows moves) = ((List.length moves + 1) / 2)%nat.
Proof.
  split; [apply rows_paired|]. rewrite rows_paired. apply paired_length.
Qed.

(** After a full move is added to an even number of moves, the table
    is the one of before with one row more, written before all others:
    the rows come newest first. *)
Theorem newest_move_on_top (moves : list (string * string * string))
    (w b : string * string * string) :
  Nat.even (List.length moves) = true ->
  get_move_history_html (moves ++ [w; b])
  = history_head
      ++ row (Z.of_nat (List.length moves) / 2 + 1) (shown w) (shown b)
      ++ String.concat "" (rev (rows moves)) ++ history_tail.
Proof.
  intros Hev. unfold get_move_history_html.
  rewrite !rows_paired, paired_app by exact Hev.
  cbn [paired]. rewrite rev_app_distr. cbn [rev app].
  rewrite concat_cons, string_append_assoc, Z.add_comm. reflexivity.
Qed.

End MoveTable.

Lemma newest_move_on_top_witness :
  Nat.even (List.length [("e2e4", "e4", "centre"); ("e7e5", "e5", "same")])
  = true
  /\ ChessUtils.get_move_history_html
       [("e2e4", "e4", "centre"); ("e7e5", "e5", "same");
        ("g1f3", "Nf3", "develop"); ("b8c6", "Nc6", "defend")]
     = ChessUtils.history_head
         ++ ChessUtils.row 2 "Nf3<br/><small>develop</small>"
              "Nc6<br/><small>defend</small>"
         ++ ChessUtils.row 1 "e4<br/><small>centre</small>"
              "e5<br/><small>same</small>"
         ++ ChessUtils.history_tail.
Proof.
  split; [reflexivity|].
  exact (newest_move_on_top
           [("e2e4", "e4", "centre"); ("e7e5", "e5", "same")]
           ("g1f3", "Nf3", "develop") ("b8c6", "Nc6", "defend") eq_refl).
Defined.

(** ** One move at a time *)

Section SingleMoves.
Context {E : RulesEngine}.

Import Controller Notions App.

Lemma finish_frame (c : GameController) (st : Session) :
  exists c',
    game_controller (snd (finish c st)) = Some c'
    /\ game c' = game c
    /\ game_stats c' = game_stats c
    /\ move_times c' = move_times c
    /\ setup c' = setup c
    /\ fst (finish c st) = Some false
    /\ game_finished (snd (finish c st)) = true
    /\ last_move_count (snd (finish c st)) = last_move_count st
    /\ (result (game_stats c) = None -> pgn (snd (finish c st)) = pgn st).
Proof.
  unfold finish.
  destruct (export_game_frame c) as (Hg & Hs & _ & Hm & Hp).
  pose proof (export_game_without_result c) as Hr.
  destruct (export_game c) as [[text|e] c2]; cbn in *;
    exists c2; repeat split; auto.
  intros Hn. destruct (Hr Hn) as (e & He). discriminate.
Qed.

Lemma single_move_frame (st : Session) (c : GameController) :
  game_controller st = Some c ->
  exists c',
    game_controller (snd (play_single_move st)) = Some c'
    /\ figures (game_stats c') = figures (game_stats c)
    /\ move_times c' = move_times c
    /\ setup c' = setup c
    /\ (result (game_stats c) = None
        -> pgn (snd (play_single_move st)) = pgn st).
Proof.
  intros Hc. unfold play_single_move. rewrite Hc.
  destruct (negb (game_finished st)); [|exists c; auto].
  destruct (Game.is_game_over (game c)).
  - destruct (finish_frame c st) as (c' & H1 & _ & H2 & H3 & H4 & _ & _ & _ & H5).
    exists c'. rewrite H2. auto.
  - pose proof (turn_figures (_get_current_player c) (mover c) c) as Hf.
    pose proof (turn_move_times (_get_current_player c) (mover c) c) as Hm.
    pose proof (turn_setup (_get_current_player c) (mover c) c) as Hs.
    destruct (_get_next_move (_get_current_player c) (mover c) c)
      as [[m|] c2]; cbn [snd] in Hf, Hm, Hs.
    + destruct (current_game st); cbn; exists c2; auto.
    + destruct (finish_frame c2 st)
        as (c' & H1 & _ & H2 & H3 & H4 & _ & _ & _ & H5).
      exists c'. rewrite H2, H3, H4. repeat split; auto.
      intros Hn. apply H5.
      assert (Hr : result (game_stats c2) = result (game_stats c))
        by (unfold figures in Hf; congruence).
      congruence.
Qed.

Lemma play_moves_frame (n : nat) :
  forall (st : Session) (c : GameController),
    game_controller st = Some c ->
    exists c',
      game_controller (play_moves n st) = Some c'
      /\ figures (game_stats c') = figures (game_stats c)
      /\ move_times c' = move_times c
      /\ setup c' = setup c
      /\ (result (game_stats c) = None -> pgn (play_moves n st) = pgn st).
Proof.
  induction n as [|n IH]; intros st c Hc.
  - exists c. auto.
  - cbn [play_moves].
    destruct (single_move_frame st c Hc) as (c1 & H1 & Hf1 & Hm1 & Hs1 & Hp1).
    destruct (IH _ c1 H1) as (c2 & H2 & Hf2 & Hm2 & Hs2 & Hp2).
    exists c2. repeat split; try congruence.
    intros Hn. rewrite Hp2, Hp1; auto.
    unfold figures in Hf1. congruence.
Qed.

(** However many times [play_single_move] is called on a match started
    from the page, no transcript is ever stored: the result is never
    recorded on this path, so [export_game] raises and the handler only
    marks the match as finished. *)
Theorem page_match_stores_no_pgn (white black : LLM.BaseLLM)
    (time_control max_moves : option Z) (now : datetime) (st : Session)
    (n : nat) :
  pgn (play_moves n
         (start_new_game (init white black time_control max_moves now) st))
  = None.
Proof.
  destruct (play_moves_frame n
              (start_new_game (init white black time_control max_moves now) st)
              _ eq_refl) as (c' & _ & _ & _ & _ & Hp).
  apply Hp. reflexivity.
Qed.

(** However many times [play_single_move] is called on a match started
    from the page, the statistics of its controller stay those of a new
    match (no move counted, no thinking time sampled, no result), and
    the players, the time control and the move limit stay the same,
    whatever was played on the board. *)
Theorem page_match_keeps_no_statistics (white black : LLM.BaseLLM)
    (time_control max_moves : option Z) (now : datetime) (st : Session)
    (n : nat) :
  let c := init white black time_control max_moves now in
  exists c',
    game_controller (play_moves n (start_new_game c st)) = Some c'
    /\ total_moves (game_stats c') = 0%Z
    /\ average_time_per_move (game_stats c')
       = {| at_white := 0; at_black := 0 |}
    /\ longest_think_time (game_stats c')
       = {| at_white := 0; at_black := 0 |}
    /\ result (game_stats c') = None
    /\ move_times c' = {| at_white := []; at_black := [] |}
    /\ setup c' = setup c.
Proof.
  cbn zeta.
  destruct (play_moves_frame n
              (start_new_game (init white black time_control max_moves now) st)
              _ eq_refl) as (c' & Hc & Hf & Hm & Hs & _).
  exists c'. unfold figures in Hf. cbn in Hf. injection Hf as H1 H2 H3 H4.
  repeat split; assumption.
Qed.

(** A call of [play_single_move] on a running match returns [True]
    exactly when it got one move onto the board: the history is then one
    record longer and [last_move_count] is its length.  Otherwise it
    returns [False], marks the match as finished and leaves the board,
    the history and [last_move_count] as they were. *)
Theorem single_move_result (st : Session) (c : GameController) :
  game_controller st = Some c -> game_finished st = false ->
  current_game st = true ->
  let r := play_single_move st in
  exists c',
    game_controller (snd r) = Some c'
    /\ ((fst r = Some true
         /\ Game.is_game_over (game c) = false
         /\ (exists record,
               Game.move_history (game c')
               = (Game.move_history (game c) ++ [record])%list)
         /\ last_move_count (snd r)
            = Z.of_nat (List.length (Game.move_history (game c')))
         /\ game_finished (snd r) = false
         /\ pgn (snd r) = pgn st)
        \/ (fst r = Some false
            /\ game c' = game c
            /\ last_move_count (snd r) = last_move_count st
            /\ game_finished (snd r) = true)).
Proof.
  intros Hc Hfin Hcur. cbn zeta. unfold play_single_move.
  rewrite Hc, Hfin, Hcur. cbn [negb].
  destruct (Game.is_game_over (game c)) eqn:Hover.
  - destruct (finish_frame c st)
      as (c' & H1 & H2 & _ & _ & _ & H3 & H4 & H5 & _).
    exists c'. split; [exact H1|]. right. auto.
  - pose proof (turn_history (_get_current_player c) (mover c) c) as Hh.
    destruct (_get_next_move (_get_current_player c) (mover c) c)
      as [[m|] c2].
    + exists c2. split; [reflexivity|]. left. cbn. repeat split; auto.
    + destruct (finish_frame c2 st)
        as (c' & H1 & H2 & _ & _ & _ & H3 & H4 & H5 & _).
      exists c'. split; [exact H1|]. right. repeat split; auto. congruence.
Qed.

End SingleMoves.

Lemma single_move_result_witness :
  let st := App.start_new_game Scenario.one_move App.initial in
  App.game_controller st = Some Scenario.one_move
  /\ App.game_finished st = false
  /\ App.current_game st = true
  /\ fst (App.play_single_move st) = Some true
  /\ App.last_move_count (snd (App.play_single_move st)) = 1%Z.
Proof.
  cbn zeta. split; [reflexivity|]. split; [reflexivity|].
  split; [reflexivity|].
  destruct (single_move_result
              (App.start_new_game Scenario.one_move App.initial)
              Scenario.one_move eq_refl eq_refl eq_refl)
    as (c' & _ & [(Hr & _ & _ & Hl & _) | (Hr & _)]).
  - split; [exact Hr|]. vm_compute. reflexivity.
  - vm_compute in Hr. discriminate Hr.
Defined.

(** ** A turn that is played *)

Section PlayedTurns.
Context {E : RulesEngine} {L : RulesEngineLaws E}.

Import Controller Notions Derived Ledger.

(** A move taken from the list the player was offered is played: in a
    match that is not over, when the player answers in time with one of
    the offered texts, the pass goes on with the move that has this
    notation pushed onto the board, one record (UCI text, the text of the
    player, explanation with confidence) appended to the history, the
    thinking time sampled for the side that moved, its clock charged, the
    counter one higher, and neither a result nor a termination reason
    recorded. *)
Theorem offered_move_is_played (s : GameController) (mv : LLM.ChessMove) :
  fst (_is_game_finished s) = Ok false ->
  LLM.get_next_move (_get_current_player s) (request s) = Ok (Some mv) ->
  clock_allows s (mover s) (LLM.thinking_time mv) ->
  In (LLM.move mv) (LLM.legal_moves (request s)) ->
  let b := Game.board (game s) in
  exists m s',
    In m (board_legal_moves b)
    /\ san b m = LLM.move mv
    /\ loop_body s = Next s'
    /\ Game.board (game s') = push b m
    /\ Game.move_history (game s')
       = (Game.move_history (game s)
            ++ [(uci m, LLM.move mv, annotation mv)])%list
    /\ move_times s'
       = set (mover s)
             (get (mover s) (move_times s) ++ [LLM.thinking_time mv])%list
             (move_times s)
    /\ time_remaining s' = charge_mover s (LLM.thinking_time mv)
    /\ total_moves (game_stats s') = (total_moves (game_stats s) + 1)%Z
    /\ result (game_stats s') = result (game_stats s)
    /\ termination (game_stats s') = termination (game_stats s).
Proof.
  intros Hfin Hreply Hclock Hin. cbn zeta.
  cbn [request LLM.legal_moves] in Hin. apply in_map_iff in Hin.
  destruct Hin as (m & Hsan & Hm). exists m.
  pose proof (parse_san_san _ _ Hm) as Hparse. rewrite Hsan in Hparse.
  pose proof (from_uci_uci _ _ Hm) as Huci.
  pose proof (proj2 (is_legal_In _ _) Hm) as Hlegal.
  unfold loop_body. rewrite (not_finished_same s Hfin).
  unfold _get_next_move, clock_allows, charge_mover in *. rewrite Hreply.
  destruct (time_remaining s) as [tr|] eqn:Htr.
  - rewrite get_set_same.
    destruct (Qle_bool (get (mover s) tr - LLM.thinking_time mv) 0) eqn:Hle;
      [apply Qle_bool_iff in Hle; lra|].
    unfold convert_and_move. cbn [game set_time_remaining].
    rewrite Hparse. unfold Game.make_move. cbn [with_move LLM.move].
    rewrite Huci, Hlegal. eexists. repeat split; try eassumption.
  - unfold convert_and_move. rewrite Hparse.
    unfold Game.make_move. cbn [with_move LLM.move].
    rewrite Huci, Hlegal. eexists. repeat split; try eassumption.
Qed.

End PlayedTurns.

Lemma offered_move_is_played_witness :
  let s := Scenario.two_moves in
  let mv := {| LLM.move := "e4"; LLM.explanation := "book";
               LLM.confidence := 9 # 10; LLM.thinking_time := 2 |} in
  fst (Controller._is_game_finished s) = Ok false
  /\ LLM.get_next_move (Controller._get_current_player s)
       (Controller.request s) = Ok (Some mv)
  /\ Notions.clock_allows s (Controller.mover s) (LLM.thinking_time mv)
  /\ In (LLM.move mv) (LLM.legal_moves (Controller.request s))
  /\ exists s',
      Controller.loop_body s = Controller.Next s'
      /\ Game.move_history (Controller.game s')
         = [("e2e4", "e4", "book (confidence: 0.90)")]
      /\ Controller.time_remaining s'
         = Some {| Controller.at_white := 300 - 2;
                   Controller.at_black := 300 |}.
Proof.
  cbn zeta.
  assert (Hin : In "e4" (LLM.legal_moves
                           (Controller.request Scenario.two_moves)))
    by (apply str_in_In; reflexivity).
  split; [reflexivity|]. split; [reflexivity|]. split; [reflexivity|].
  split; [exact Hin|].
  destruct (offered_move_is_played (L := opening_laws) Scenario.two_moves
              {| LLM.move := "e4"; LLM.explanation := "book";
                 LLM.confidence := 9 # 10; LLM.thinking_time := 2 |}
              eq_refl eq_refl eq_refl Hin)
    as (m & s' & Hm & Hsan & Hb & _ & Hh & _ & Ht & _).
  exists s'. split; [exact Hb|]. split; [|exact Ht].
  rewrite Hh.
  assert (Hu : uci m = "e2e4").
  { clear - Hm Hsan. cbn in Hm.
    repeat (destruct Hm as [<-|Hm]; [first [reflexivity | discriminate Hsan]|]).
    destruct Hm. }
  rewrite Hu. reflexivity.
Defined.

(** ** The reason noted for a lost clock *)

Section LostClocks.
Context {E : RulesEngine}.

Import Controller Notions.

(** A game lost on time is reported as an invalid move: when the charge
    for the returned move takes the clock of the side to move to zero or
    below, [_get_next_move] notes "<color> lost on time", and the pass of
    the loop that called it replaces this by "Invalid move by <color>"
    before it leaves the loop. *)
Theorem lost_clock_reported_as_invalid_move (s : GameController)
    (tr : PerColor Q) (mv : LLM.ChessMove) :
  fst (_is_game_finished s) = Ok false ->
  time_remaining s = Some tr ->
  LLM.get_next_move (_get_current_player s) (request s) = Ok (Some mv) ->
  get (mover s) tr - LLM.thinking_time mv <= 0 ->
  let turn := _get_next_move (_get_current_player s) (mover s) s in
  fst turn = None
  /\ termination (game_stats (snd turn))
     = Some (str_color (mover s) ++ " lost on time")
  /\ exists s',
      loop_body s = Exit Broke s'
      /\ termination (game_stats s')
         = Some ("Invalid move by " ++ str_color (mover s)).
Proof.
  intros Hfin Htr Hreply Hle. cbn zeta. unfold loop_body.
  rewrite (not_finished_same s Hfin).
  rewrite (turn_exhausted _ _ s tr mv Htr Hreply Hle).
  split; [reflexivity|]. split; [reflexivity|].
  eexists. split; reflexivity.
Qed.

End LostClocks.

Lemma lost_clock_reported_as_invalid_move_witness :
  let s := Scenario.slow_white in
  let mv := {| LLM.move := "e4"; LLM.explanation := "book";
               LLM.confidence := 9 # 10; LLM.thinking_time := 15 |} in
  fst (Controller._is_game_finished s) = Ok false
  /\ Controller.time_remaining s
     = Some {| Controller.at_white := 10; Controller.at_black := 10 |}
  /\ LLM.get_next_move (Controller._get_current_player s)
       (Controller.request s) = Ok (Some mv)
  /\ 10 - LLM.thinking_time mv <= 0
  /\ exists s',
      Controller.loop_body s = Controller.Exit Controller.Broke s'
      /\ Controller.termination (Controller.game_stats s')
         = Some "Invalid move by white".
Proof.
  cbn zeta.
  assert (Hle : 10 - 15 <= 0) by (vm_compute; discriminate).
  split; [reflexivity|]. split; [reflexivity|]. split; [reflexivity|].
  split; [exact Hle|].
  exact (proj2 (proj2 (lost_clock_reported_as_invalid_move Scenario.slow_white
                         {| Controller.at_white := 10;
                            Controller.at_black := 10 |}
                         {| LLM.move := "e4"; LLM.explanation := "book";
                            LLM.confidence := 9 # 10;
                            LLM.thinking_time := 15 |}
                         eq_refl eq_refl eq_refl Hle))).
Defined.
